(** * A shallow embedding of [src/context.ts] (class [GardenContext]).

    The context is modelled as a record of its fields; its methods run in a
    small state/error monad [M]: a thrown exception is an [Err] and leaves the
    state as it was at the point of the throw, as in JavaScript.  Plain JS
    objects used as dictionaries are insertion-ordered association lists whose
    property read also sees the members inherited from [Object.prototype]. *)

From Stdlib Require Import String Ascii List Bool Arith NArith Lia.
Import ListNotations.
Open Scope list_scope.
Open Scope string_scope.

(** ** JavaScript values used by the code *)

(** Result of a property read [o[k]] on a plain object: an own property, or a
    member inherited from [Object.prototype] (a function or, for
    [__proto__], [Object.prototype] itself: truthy in both cases). *)
Inductive jsval (V : Type) : Type :=
| JOwn (v : V)
| JProto (k : string).
Arguments JOwn {V} v.
Arguments JProto {V} k.

(** A plain object: its own properties in creation order. *)
Definition jsobj (V : Type) : Type := list (string * V).

(** Own property names of [Object.prototype]. *)
Definition objectPrototypeKeys : list string :=
  ["constructor"; "__defineGetter__"; "__defineSetter__"; "hasOwnProperty";
   "__lookupGetter__"; "__lookupSetter__"; "isPrototypeOf";
   "propertyIsEnumerable"; "toString"; "valueOf"; "__proto__";
   "toLocaleString"].

Definition is_proto_key (k : string) : bool :=
  existsb (String.eqb k) objectPrototypeKeys.

Fixpoint js_own {V} (o : jsobj V) (k : string) : option V :=
  match o with
  | [] => None
  | (k', v) :: o' => if String.eqb k k' then Some v else js_own o' k
  end.

(** [o[k]]; [None] is [undefined]. *)
Definition js_get {V} (o : jsobj V) (k : string) : option (jsval V) :=
  match js_own o k with
  | Some v => Some (JOwn v)
  | None => if is_proto_key k then Some (JProto k) else None
  end.

(** [o[k] = v] for a key that is not [__proto__] (the code only assigns after
    checking that [o[k]] is falsy, which excludes every inherited name). *)
Fixpoint js_set {V} (o : jsobj V) (k : string) (v : V) : jsobj V :=
  match o with
  | [] => [(k, v)]
  | (k', v') :: o' =>
      if String.eqb k k' then (k', v) :: o' else (k', v') :: js_set o' k v
  end.

(** Array indices: canonical decimal numerals below 2^32 - 1. *)
Definition is_digit (c : ascii) : bool :=
  Nat.leb 48 (nat_of_ascii c) && Nat.leb (nat_of_ascii c) 57.

Fixpoint digits_value (s : string) (acc : N) : option N :=
  match s with
  | EmptyString => Some acc
  | String c s' =>
      if is_digit c
      then digits_value s' (acc * 10 + N.of_nat (Nat.sub (nat_of_ascii c) 48))%N
      else None
  end.

Definition array_index_value (s : string) : option N :=
  match s with
  | EmptyString => None
  | String c s' =>
      if is_digit c then
        if Ascii.eqb c "0" then
          (match s' with EmptyString => Some 0%N | _ => None end)
        else
          match digits_value s 0%N with
          | Some n => if (n <? 4294967295)%N then Some n else None
          | None => None
          end
      else None
  end.

Definition is_array_index (s : string) : bool :=
  match array_index_value s with Some _ => true | None => false end.

Fixpoint insert_by_index {V} (e : string * V) (l : jsobj V) : jsobj V :=
  match l with
  | [] => [e]
  | e' :: l' =>
      match array_index_value (fst e), array_index_value (fst e') with
      | Some a, Some b => if (a <=? b)%N then e :: l else e' :: insert_by_index e l'
      | _, _ => e :: l
      end
  end.

Definition sort_by_index {V} (l : jsobj V) : jsobj V :=
  fold_right insert_by_index [] l.

(** Own enumerable string-keyed properties in the order the language fixes:
    array indices ascending, then the other keys in creation order. *)
Definition js_entries {V} (o : jsobj V) : jsobj V :=
  (sort_by_index (filter (fun e => is_array_index (fst e)) o)
   ++ filter (fun e => negb (is_array_index (fst e))) o)%list.

(** lodash [values]. *)
Definition js_values {V} (o : jsobj V) : list V := map snd (js_entries o).

(** Names that lodash [pick] takes as one property name whatever its release:
    no path syntax ([.] or [[]), and none of the three names recent releases
    refuse to write ([__proto__], [constructor], [prototype]). *)
Definition plain_key (k : string) : bool :=
  negb (existsb (fun c => Ascii.eqb c "." || Ascii.eqb c "[") (list_ascii_of_string k))
  && negb (existsb (String.eqb k) ["__proto__"; "constructor"; "prototype"]).

(** lodash [pick] as its older releases define it, with every requested name
    taken as a property name: a fresh object with every requested name present
    in [o], own or inherited.  On names satisfying [plain_key] the recent
    releases agree with it; on others they differ (they read a dotted name as
    a path, and skip the three names above). *)
Fixpoint js_pick {V} (o : jsobj V) (names : list string) (acc : jsobj (jsval V))
  : jsobj (jsval V) :=
  match names with
  | [] => acc
  | n :: ns =>
      match js_get o n with
      | Some v => js_pick o ns (js_set acc n v)
      | None => js_pick o ns acc
      end
  end.

(** ** Strings and paths *)

(** [s.split(sep)] for a one-character separator: never empty. *)
Fixpoint split_on (sep : ascii) (s : string) : list string :=
  match s with
  | EmptyString => [""]
  | String c s' =>
      match split_on sep s' with
      | seg :: segs =>
          if Ascii.eqb c sep then "" :: seg :: segs else String c seg :: segs
      | [] => [String c ""]
      end
  end.

(** [parts.join(sep)]. *)
Definition join (sep : string) (parts : list string) : string :=
  String.concat sep parts.

(** [a || b] on strings. *)
Definition str_or (a b : string) : string :=
  if String.eqb a "" then b else a.

(** Node's [path.parse(p).base] and [.dir] for a file path without a
    trailing separator. *)
Definition path_base (p : string) : string := last (split_on "/" p) "".

Definition path_dir (p : string) : string :=
  match removelast (split_on "/" p) with
  | [] => ""
  | [""] => "/"
  | segs => join "/" segs
  end.

(** The trailing separators [path.resolve] drops ([/] itself becomes the
    empty string here, so that appending [/] gives it back). *)
Fixpoint drop_seps (cs : list ascii) : list ascii :=
  match cs with
  | c :: cs' => if Ascii.eqb c "/" then drop_seps cs' else cs
  | [] => []
  end.

Definition strip_trailing_seps (s : string) : string :=
  string_of_list_ascii (rev (drop_seps (rev (list_ascii_of_string s)))).

(** Node's [path.relative(root, p)] for an absolute, normalised path [p] at or
    below the absolute, normalised project root [root], with or without
    trailing separators (the directory scanner only yields such paths). *)
Definition path_relative (root p : string) : string :=
  let root := strip_trailing_seps root in
  let pre := root ++ "/" in
  if String.prefix pre p
  then substring (String.length pre) (Nat.sub (String.length p) (String.length pre)) p
  else if String.eqb root (strip_trailing_seps p) then "" else p.

(** ** Data model *)

(** A service's raw configuration fragment ([any] in the source), kept
    verbatim and opaque to this core. *)
Definition RawConfig : Type := string.

(** Module configuration as returned by [loadModuleConfig(modulePath)]; a
    parse handler receives only this configuration, so the module's path
    reaches it through [path], the directory the loader was given. *)
Module ModuleConfig.
Record t : Type := mk {
    name : string;
    type : string;
    path : string;
    services : option (jsobj RawConfig)  (* [config.services], may be absent *)
  }.
End ModuleConfig.

(** The typed module ([Module] in [types/module]) produced by a parse handler. *)
Module GardenModule.
Record t : Type := mk {
    name : string;
    type : string;
    path : string;
    config : ModuleConfig.t
  }.
End GardenModule.

(** [interface Service]. *)
Module Service.
Record t : Type := mk {
    module : GardenModule.t;
    config : RawConfig
  }.
End Service.

(** Values reported by the build capabilities, opaque to this core. *)
Definition BuildStatus : Type := string.
Definition BuildResult : Type := string.

(** [PluginInterface]: identifier, supported module types, and the optional
    capability handlers.  The context argument a handler also receives is not
    modelled (no handler in this development reads it). *)
Module Plugin.
Record t : Type := mk {
    name : string;
    supportedModuleTypes : list string;
    parseModule : option (ModuleConfig.t -> GardenModule.t);
    getModuleBuildStatus : option (GardenModule.t -> BuildStatus);
    buildModule : option (GardenModule.t -> BuildResult)
  }.
End Plugin.

(** The keys of [PluginActions], i.e. [pluginActionNames]. *)
Inductive PluginAction : Type :=
| parseModule
| getModuleBuildStatus
| buildModule.

Definition pluginActionNames : list PluginAction :=
  [parseModule; getModuleBuildStatus; buildModule].

Definition actionName (a : PluginAction) : string :=
  match a with
  | parseModule => "parseModule"
  | getModuleBuildStatus => "getModuleBuildStatus"
  | buildModule => "buildModule"
  end.

(** [PluginActions<any>[A]]: the type of the handler for capability [A]. *)
Definition PluginActions (a : PluginAction) : Type :=
  match a with
  | parseModule => ModuleConfig.t -> GardenModule.t
  | getModuleBuildStatus => GardenModule.t -> BuildStatus
  | buildModule => GardenModule.t -> BuildResult
  end.

(** [plugin[action]]. *)
Definition pluginAction (p : Plugin.t) (a : PluginAction) : option (PluginActions a) :=
  match a with
  | parseModule => Plugin.parseModule p
  | getModuleBuildStatus => Plugin.getModuleBuildStatus p
  | buildModule => Plugin.buildModule p
  end.

(** [PluginActionMap]: per capability, plugin identifier to bound handler. *)
Module PluginActionMap.
Record t : Type := mk {
    parseModule : jsobj (PluginActions parseModule);
    getModuleBuildStatus : jsobj (PluginActions getModuleBuildStatus);
    buildModule : jsobj (PluginActions buildModule)
  }.
End PluginActionMap.

Definition actionMapGet (m : PluginActionMap.t) (a : PluginAction)
  : jsobj (PluginActions a) :=
  match a with
  | parseModule => PluginActionMap.parseModule m
  | getModuleBuildStatus => PluginActionMap.getModuleBuildStatus m
  | buildModule => PluginActionMap.buildModule m
  end.

Definition actionMapSet (m : PluginActionMap.t) (a : PluginAction)
  : jsobj (PluginActions a) -> PluginActionMap.t :=
  match a return jsobj (PluginActions a) -> PluginActionMap.t with
  | parseModule => fun o =>
      PluginActionMap.mk o (PluginActionMap.getModuleBuildStatus m)
        (PluginActionMap.buildModule m)
  | getModuleBuildStatus => fun o =>
      PluginActionMap.mk (PluginActionMap.parseModule m) o
        (PluginActionMap.buildModule m)
  | buildModule => fun o =>
      PluginActionMap.mk (PluginActionMap.parseModule m)
        (PluginActionMap.getModuleBuildStatus m) o
  end.

(** Project configuration: environments, each with its provider slots. *)
Module ProviderConfig.
Record t : Type := mk { type : string }.
End ProviderConfig.

Module EnvironmentConfig.
Record t : Type := mk { providers : jsobj ProviderConfig.t }.
End EnvironmentConfig.

Module ProjectConfig.
Record t : Type := mk { environments : jsobj EnvironmentConfig.t }.
End ProjectConfig.

(** [Environment] as returned by [getEnvironment]. *)
Module Environment.
Record t : Type := mk {
    name : string;
    namespace : option string;
    config : option (jsval EnvironmentConfig.t)
  }.
End Environment.

(** Detail payloads of the errors thrown in [context.ts]. *)
Inductive ErrorDetail : Type :=
| DEnvironment (name namespace : string)
| DEmpty
| DPluginConflict (previous : jsval Plugin.t) (adding : Plugin.t)
| DModulePaths (pathA : option string) (pathB : string)
| DServiceModules (serviceName moduleA moduleB : string)
| DNoHandler (requestedHandlerType : PluginAction) (requestedModuleType : option string)
| DNoEnvHandler (requestedHandlerType : PluginAction) (requestedModuleType : option string)
    (environment : string).

Inductive GardenError : Type :=
| ConfigurationError (message : string) (detail : ErrorDetail)
| ParameterError (message : string) (detail : ErrorDetail)
| PluginError (message : string) (detail : ErrorDetail)
| ValidationError (value : string)      (* thrown by [Joi.attempt] *)
| TypeError (message : string)
| LoaderError (path : string).           (* propagated from the config loaders *)

Inductive result (A : Type) : Type :=
| Ok (a : A)
| Err (e : GardenError).
Arguments Ok {A} a.
Arguments Err {A} e.

(** The fields of [GardenContext] this core reads and writes.  [scanCount]
    counts the directory scans started, i.e. the calls a test double of
    [scanDirectory] would observe. *)
Record GardenContext : Type := mkContext {
  projectRoot : string;
  config : ProjectConfig.t;
  environment : option string;
  namespace : option string;
  plugins : jsobj Plugin.t;
  actionHandlers : PluginActionMap.t;
  modules : option (jsobj GardenModule.t);
  services : option (jsobj Service.t);
  scanCount : nat
}.

Definition setConfig (c : GardenContext) (v : ProjectConfig.t) : GardenContext :=
  mkContext (projectRoot c) v (environment c) (namespace c) (plugins c)
    (actionHandlers c) (modules c) (services c) (scanCount c).
Definition setEnvironmentFields (c : GardenContext) (n ns : string) : GardenContext :=
  mkContext (projectRoot c) (config c) (Some n) (Some ns) (plugins c)
    (actionHandlers c) (modules c) (services c) (scanCount c).
Definition setPlugins (c : GardenContext) (v : jsobj Plugin.t) : GardenContext :=
  mkContext (projectRoot c) (config c) (environment c) (namespace c) v
    (actionHandlers c) (modules c) (services c) (scanCount c).
Definition setActionHandlers (c : GardenContext) (v : PluginActionMap.t) : GardenContext :=
  mkContext (projectRoot c) (config c) (environment c) (namespace c) (plugins c)
    v (modules c) (services c) (scanCount c).
Definition setIndexes (c : GardenContext) (ms : jsobj GardenModule.t)
  (ss : jsobj Service.t) : GardenContext :=
  mkContext (projectRoot c) (config c) (environment c) (namespace c) (plugins c)
    (actionHandlers c) (Some ms) (Some ss) (scanCount c).
Definition countScan (c : GardenContext) : GardenContext :=
  mkContext (projectRoot c) (config c) (environment c) (namespace c) (plugins c)
    (actionHandlers c) (modules c) (services c) (S (scanCount c)).

(** ** The state/error monad *)

Definition M (A : Type) : Type := GardenContext -> GardenContext * result A.

Definition ret {A} (a : A) : M A := fun c => (c, Ok a).
Definition bind {A B} (m : M A) (k : A -> M B) : M B :=
  fun c => match m c with
           | (c', Ok a) => k a c'
           | (c', Err e) => (c', Err e)
           end.
Definition throw {A} (e : GardenError) : M A := fun c => (c, Err e).
Definition get : M GardenContext := fun c => (c, Ok c).
Definition put (c : GardenContext) : M unit := fun _ => (c, Ok tt).
Definition liftResult {A} (r : result A) : M A := fun c => (c, r).

Notation "x <- m ;; k" := (bind m (fun x => k))
  (at level 61, m at next level, right associativity).
Notation "m ;;; k" := (bind m (fun _ => k))
  (at level 61, right associativity).

(** External collaborators and constants of other source files: the
    constants module, the identifier schema [JoiIdentifier], the directory
    scanner composed with the ignore matcher, the two configuration loaders,
    and the built-in plugin classes. *)
Class Runtime : Type := {
  DEFAULT_NAMESPACE : string;
  MODULE_CONFIG_FILENAME : string;
  JoiIdentifier : string -> bool;
  scanDirectory : string -> list string;
  loadModuleConfig : string -> result ModuleConfig.t;
  loadProjectConfig : string -> result ProjectConfig.t;
  builtinPlugins : list (GardenContext -> Plugin.t)
}.

(** ** The methods of [GardenContext] *)

Section Methods.
Context `{Runtime}.

(** [Joi.attempt(value, JoiIdentifier())]. *)
Definition joiAttemptIdentifier (value : string) : M string :=
  if JoiIdentifier value then ret value else throw (ValidationError value).

(** The loop of [registerPlugin] over [pluginActionNames]: for each capability
    the plugin implements, store its handler under the plugin's name.  The
    stored closure [(...args) => actionHandler.apply(plugin, args)] forwards
    its arguments unchanged, so it is the handler itself here. *)
Definition bindActions (plugin : Plugin.t) (pluginName : string)
  (m : PluginActionMap.t) : PluginActionMap.t :=
  fold_left
    (fun m action =>
       match pluginAction plugin action with
       | Some actionHandler =>
           actionMapSet m action
             (js_set (actionMapGet m action) pluginName actionHandler)
       | None => m
       end)
    pluginActionNames m.

Definition registerPlugin (pluginFactory : GardenContext -> Plugin.t) : M unit :=
  ctx <- get ;;
  let plugin := pluginFactory ctx in
  pluginName <- joiAttemptIdentifier (Plugin.name plugin) ;;
  match js_get (plugins ctx) pluginName with
  | Some previous =>
      throw (PluginError ("Plugin " ++ pluginName ++ " declared more than once")
               (DPluginConflict previous plugin))
  | None =>
      let ctx := setPlugins ctx (js_set (plugins ctx) pluginName plugin) in
      put (setActionHandlers ctx (bindActions plugin pluginName (actionHandlers ctx)))
  end.

Fixpoint registerPlugins (factories : list (GardenContext -> Plugin.t)) : M unit :=
  match factories with
  | [] => ret tt
  | f :: fs => registerPlugin f ;;; registerPlugins fs
  end.

(** The fields right after the constructor's initialisers; [config] is not
    assigned yet (it is never read before the constructor assigns it). *)
Definition initialContext (root : string) : GardenContext :=
  mkContext root (ProjectConfig.mk []) None None []
    (PluginActionMap.mk [] [] []) None None 0.

(** [new GardenContext(projectRoot)]: built-in plugins first, in their fixed
    order, then the project configuration. *)
Definition newGardenContext (root : string) : result GardenContext :=
  match registerPlugins builtinPlugins (initialContext root) with
  | (ctx, Ok _) =>
      match loadProjectConfig root with
      | Ok cfg => Ok (setConfig ctx cfg)
      | Err e => Err e
      end
  | (_, Err e) => Err e
  end.

Definition setEnvironment (environment : string) : M (string * string) :=
  ctx <- get ;;
  let parts := split_on "." environment in
  let name := hd "" parts in
  let namespace := str_or (join "." (tl parts)) DEFAULT_NAMESPACE in
  match js_get (ProjectConfig.environments (config ctx)) name with
  | None =>
      throw (ParameterError ("Could not find environment " ++ environment)
               (DEnvironment name namespace))
  | Some _ =>
      put (setEnvironmentFields ctx name namespace) ;;;
      ret (name, namespace)
  end.

Definition getEnvironment : M Environment.t :=
  ctx <- get ;;
  match environment ctx with
  | None | Some EmptyString => throw (PluginError "Environment has not been set" DEmpty)
  | Some env =>
      ret (Environment.mk env (namespace ctx)
             (js_get (ProjectConfig.environments (config ctx)) env))
  end.

(** The filter of [getAllPlugins]: [if (moduleType)] treats an absent and an
    empty module type alike. *)
Definition filterModuleType (moduleType : option string) (allPlugins : list Plugin.t)
  : list Plugin.t :=
  match moduleType with
  | Some m =>
      if String.eqb m "" then allPlugins
      else filter (fun p => existsb (String.eqb m) (Plugin.supportedModuleTypes p))
             allPlugins
  | None => allPlugins
  end.

Definition getAllPlugins (moduleType : option string) : M (list Plugin.t) :=
  ctx <- get ;;
  ret (filterModuleType moduleType (js_values (plugins ctx))).

(** [values(env.config.providers).map(p => p.type)]; an inherited member of
    [Object.prototype] has no [providers] ([values(undefined)] is [[]]). *)
Definition envProviderTypes (cfg : jsval EnvironmentConfig.t) : list string :=
  match cfg with
  | JOwn c => map ProviderConfig.type (js_values (EnvironmentConfig.providers c))
  | JProto _ => []
  end.

Definition getEnvPlugins (moduleType : option string) : M (list Plugin.t) :=
  env <- getEnvironment ;;
  allPlugins <- getAllPlugins moduleType ;;
  match Environment.config env with
  | None => throw (TypeError "Cannot read property 'providers' of undefined")
  | Some cfg =>
      let types := envProviderTypes cfg in
      ret (filter (fun p => existsb (String.eqb (Plugin.name p)) types) allPlugins)
  end.

(** [plugin[type]] is truthy. *)
Definition implementsAction (a : PluginAction) (p : Plugin.t) : bool :=
  match pluginAction p a with Some _ => true | None => false end.

Definition noHandlerMessage (type : PluginAction) (moduleType : option string) : string :=
  "No handler for " ++ actionName type ++ " configured"
  ++ match moduleType with
     | Some m => if String.eqb m "" then "" else " for module type " ++ m
     | None => ""
     end.

Definition getActionHandler (type : PluginAction) (moduleType : option string)
  : M (option (jsval (PluginActions type))) :=
  plugins <- getAllPlugins moduleType ;;
  match find (implementsAction type) plugins with
  | Some plugin =>
      ctx <- get ;;
      ret (js_get (actionMapGet (actionHandlers ctx) type) (Plugin.name plugin))
  | None =>
      throw (ParameterError (noHandlerMessage type moduleType)
               (DNoHandler type moduleType))
  end.

Definition noEnvHandlerMessage (type : PluginAction) (moduleType : option string)
  (env : string) : string :=
  "No handler for " ++ actionName type ++ " configured for environment " ++ env
  ++ match moduleType with
     | Some m => if String.eqb m "" then "" else " and module type " ++ m
     | None => ""
     end.

Definition getEnvActionHandler (type : PluginAction) (moduleType : option string)
  : M (option (jsval (PluginActions type))) :=
  plugins <- getEnvPlugins moduleType ;;
  match find (implementsAction type) plugins with
  | Some plugin =>
      ctx <- get ;;
      ret (js_get (actionMapGet (actionHandlers ctx) type) (Plugin.name plugin))
  | None =>
      env <- getEnvironment ;;
      throw (ParameterError (noEnvHandlerMessage type moduleType (Environment.name env))
               (DNoEnvHandler type moduleType (Environment.name env)))
  end.

End Methods.

(** ** Module and service discovery *)

(** What [getModules]/[getServices] return: the cached object itself, a fresh
    object built by [pick], or [undefined]. *)
Inductive MapResult (V : Type) : Type :=
| Same (o : jsobj V)
| Picked (o : jsobj (jsval V))
| Undefined.
Arguments Same {V} o.
Arguments Picked {V} o.
Arguments Undefined {V}.

(** [names === undefined ? this.x : pick(this.x, names)]. *)
Definition pickView {V} (names : option (list string)) (o : option (jsobj V)) : MapResult V :=
  match names, o with
  | None, Some o => Same o
  | None, None => Undefined
  | Some ns, Some o => Picked (js_pick o ns [])
  | Some _, None => Picked []
  end.

Section Discovery.
Context `{Runtime}.

(** [parseHandler(this, config)]. *)
Definition callParse (parseHandler : option (jsval (PluginActions parseModule)))
  (cfg : ModuleConfig.t) : M GardenModule.t :=
  match parseHandler with
  | Some (JOwn h) => ret (h cfg)
  | _ => throw (TypeError "parseHandler is not a function")
  end.

(** The loop over [config.services || {}]. *)
Fixpoint addServices (module : GardenModule.t) (cfg : ModuleConfig.t)
  (entries : jsobj RawConfig) (services : jsobj Service.t) : M (jsobj Service.t) :=
  match entries with
  | [] => ret services
  | (serviceName, raw) :: rest =>
      match js_get services serviceName with
      | Some (JOwn prev) =>
          let moduleA := GardenModule.name (Service.module prev) in
          throw (ConfigurationError
                   ("Service names must be unique - " ++ serviceName
                    ++ " is declared multiple times (in '" ++ moduleA ++ "' and '"
                    ++ ModuleConfig.name cfg ++ "')")
                   (DServiceModules serviceName moduleA (ModuleConfig.name cfg)))
      | Some (JProto _) =>
          throw (TypeError "Cannot read property 'name' of undefined")
      | None =>
          addServices module cfg rest
            (js_set services serviceName (Service.mk module raw))
      end
  end.

Definition serviceEntries (cfg : ModuleConfig.t) : jsobj RawConfig :=
  match ModuleConfig.services cfg with
  | Some s => js_entries s
  | None => []
  end.

(** The body of the [for await] loop for one scanned entry. *)
Definition discoverItem (item : string)
  (acc : jsobj GardenModule.t * jsobj Service.t)
  : M (jsobj GardenModule.t * jsobj Service.t) :=
  let '(modules, services) := acc in
  if String.eqb (path_base item) MODULE_CONFIG_FILENAME then
    let modulePath := path_dir item in
    cfg <- liftResult (loadModuleConfig modulePath) ;;
    match js_get modules (ModuleConfig.name cfg) with
    | Some prev =>
        ctx <- get ;;
        let pathA := match prev with
                     | JOwn m => Some (GardenModule.path m)
                     | JProto _ => None
                     end in
        let pathB := path_relative (projectRoot ctx) item in
        throw (ConfigurationError
                 ("Module " ++ ModuleConfig.name cfg ++ " is declared multiple times ('"
                  ++ match pathA with Some p => p | None => "undefined" end
                  ++ "' and '" ++ pathB ++ "')")
                 (DModulePaths pathA pathB))
    | None =>
        parseHandler <- getActionHandler parseModule (Some (ModuleConfig.type cfg)) ;;
        module <- callParse parseHandler cfg ;;
        let modules := js_set modules (ModuleConfig.name cfg) module in
        services <- addServices module cfg (serviceEntries cfg) services ;;
        ret (modules, services)
    end
  else ret acc.

Fixpoint discover (items : list string)
  (acc : jsobj GardenModule.t * jsobj Service.t)
  : M (jsobj GardenModule.t * jsobj Service.t) :=
  match items with
  | [] => ret acc
  | item :: rest => acc' <- discoverItem item acc ;; discover rest acc'
  end.

Definition getModules (names : option (list string)) : M (MapResult GardenModule.t) :=
  ctx <- get ;;
  match modules ctx with
  | None =>
      put (countScan ctx) ;;;
      acc <- discover (scanDirectory (projectRoot ctx)) ([], []) ;;
      ctx' <- get ;;
      put (setIndexes ctx' (fst acc) (snd acc))
  | Some _ => ret tt
  end ;;;
  ctx <- get ;;
  ret (pickView names (modules ctx)).

Definition getServices (names : option (list string)) : M (MapResult Service.t) :=
  getModules None ;;;
  ctx <- get ;;
  ret (pickView names (services ctx)).

(** ** Sequences of calls *)

(** The public operations this core exposes ([addTask] and [processTasks]
    forward to the task graph and touch none of the fields modelled here). *)
Inductive Op : Type :=
| OpRegisterPlugin (f : GardenContext -> Plugin.t)
| OpSetEnvironment (selector : string)
| OpGetEnvironment
| OpGetModules (names : option (list string))
| OpGetServices (names : option (list string))
| OpGetActionHandler (type : PluginAction) (moduleType : option string)
| OpGetEnvActionHandler (type : PluginAction) (moduleType : option string).

(** A call whose exception is caught by the caller: only the state remains. *)
Definition runOp (op : Op) (ctx : GardenContext) : GardenContext :=
  match op with
  | OpRegisterPlugin f => fst (registerPlugin f ctx)
  | OpSetEnvironment s => fst (setEnvironment s ctx)
  | OpGetEnvironment => fst (getEnvironment ctx)
  | OpGetModules names => fst (getModules names ctx)
  | OpGetServices names => fst (getServices names ctx)
  | OpGetActionHandler a mt => fst (getActionHandler a mt ctx)
  | OpGetEnvActionHandler a mt => fst (getEnvActionHandler a mt ctx)
  end.

Fixpoint runOps (ops : list Op) (ctx : GardenContext) : GardenContext :=
  match ops with
  | [] => ctx
  | op :: rest => runOps rest (runOp op ctx)
  end.

(** ** Overlapping calls of [getModules]

    [getModules] is [async].  Between its test [if (!this.modules)] and the
    assignments [this.modules = modules; this.services = services] it suspends
    at each step of [for await] and at [await loadModuleConfig(modulePath)],
    and other code of the program runs meanwhile, another [getModules] call
    included.  A call in flight is a coroutine that holds its own [modules]
    and [services] objects and the entries its scan has still to yield.  Of
    the code run between two suspensions, only the part after
    [loadModuleConfig] resolves reads the context (its project root and, through
    [getActionHandler], its plugins), so resuming a call for one scanned
    entry runs [discoverItem] on the context current at that moment; resuming
    it when its scan is exhausted runs the two assignments and returns.

    Each pass allocates fresh [modules] and [services] objects: [pass] names
    that allocation (the pass's number: [scanCount] once the pass has
    started), [committedBy] the pass whose objects [this.modules] and
    [this.services] hold, and [from] the pass whose module index a settled
    call returned (or picked from). *)
Inductive Call : Type :=
| Scanning (names : option (list string)) (pass : nat) (items : list string)
    (acc : jsobj GardenModule.t * jsobj Service.t)
| Settled (from : option nat) (r : result (MapResult GardenModule.t)).

Record World : Type := mkWorld {
  wctx : GardenContext;
  committedBy : option nat;
  calls : list Call
}.

(** A call [getModules(names)] runs its synchronous prefix at once: either it
    returns the cached index, or it starts a scan and suspends. *)
Definition startCall (names : option (list string)) (w : World) : World :=
  let ctx := wctx w in
  match modules ctx with
  | Some _ =>
      mkWorld ctx (committedBy w)
        (calls w ++ [Settled (committedBy w) (Ok (pickView names (modules ctx)))])
  | None =>
      mkWorld (countScan ctx) (committedBy w)
        (calls w ++ [Scanning names (S (scanCount ctx)) (scanDirectory (projectRoot ctx)) ([], [])])
  end.

(** Resuming a suspended call until it suspends again or settles. *)
Definition resumeCall (c : Call) (ctx : GardenContext) (cb : option nat)
  : GardenContext * option nat * Call :=
  match c with
  | Scanning names pass (item :: rest) acc =>
      match discoverItem item acc ctx with
      | (ctx', Ok acc') => (ctx', cb, Scanning names pass rest acc')
      | (ctx', Err e) => (ctx', cb, Settled None (Err e))
      end
  | Scanning names pass [] (ms, ss) =>
      let ctx' := setIndexes ctx ms ss in
      (ctx', Some pass, Settled (Some pass) (Ok (pickView names (modules ctx'))))
  | Settled _ _ => (ctx, cb, c)
  end.

Fixpoint replace_nth {A} (l : list A) (i : nat) (x : A) : list A :=
  match l, i with
  | [], _ => []
  | _ :: l', O => x :: l'
  | y :: l', S i' => y :: replace_nth l' i' x
  end.

(** The event loop resumes the [i]-th call issued. *)
Definition resume (i : nat) (w : World) : World :=
  match nth_error (calls w) i with
  | Some c =>
      let '(ctx', cb, c') := resumeCall c (wctx w) (committedBy w) in
      mkWorld ctx' cb (replace_nth (calls w) i c')
  | None => w
  end.

(** A schedule: calls of [getModules] issued, suspended calls resumed, and
    the synchronous public operations run in between. *)
Inductive Sched : Type :=
| Start (names : option (list string))
| Resume (i : nat)
| Sync (op : Op).

Definition schedStep (w : World) (s : Sched) : World :=
  match s with
  | Start names => startCall names w
  | Resume i => resume i w
  | Sync op => mkWorld (runOp op (wctx w)) (committedBy w) (calls w)
  end.

Definition runSched (ss : list Sched) (w : World) : World := fold_left schedStep ss w.

(** The outcome of a call: [None] while it is suspended. *)
Definition callResult (c : Call) : option (result (MapResult GardenModule.t)) :=
  match c with
  | Settled _ r => Some r
  | Scanning _ _ _ _ => None
  end.

(** The pass whose module index a successful call returned. *)
Definition callFrom (c : Call) : option nat :=
  match c with
  | Settled f (Ok _) => f
  | _ => None
  end.

(** Observable history of successful calls: plugins registered and
    environments set. *)
Inductive Event : Type :=
| Registered (p : Plugin.t)
| EnvironmentSet (name namespace : string).

Definition opEvents (op : Op) (ctx : GardenContext) : list Event :=
  match op with
  | OpRegisterPlugin f =>
      match snd (registerPlugin f ctx) with
      | Ok _ => [Registered (f ctx)]
      | Err _ => []
      end
  | OpSetEnvironment s =>
      match snd (setEnvironment s ctx) with
      | Ok (n, ns) => [EnvironmentSet n ns]
      | Err _ => []
      end
  | _ => []
  end.

(** The plugins the constructor registers, each built from the context its
    factory is handed. *)
Fixpoint builtinInstances (fs : list (GardenContext -> Plugin.t)) (ctx : GardenContext)
  : list Plugin.t :=
  match fs with
  | [] => []
  | f :: fs' => f ctx :: builtinInstances fs' (fst (registerPlugin f ctx))
  end.

Fixpoint registeredPlugins (tr : list Event) : list Plugin.t :=
  match tr with
  | [] => []
  | Registered p :: tr' => p :: registeredPlugins tr'
  | _ :: tr' => registeredPlugins tr'
  end.

Fixpoint lastEnvironment (tr : list Event) : option (string * string) :=
  match tr with
  | [] => None
  | EnvironmentSet n ns :: tr' =>
      match lastEnvironment tr' with Some p => Some p | None => Some (n, ns) end
  | _ :: tr' => lastEnvironment tr'
  end.

(** Contexts a caller can hold, with the history that produced them. *)
Inductive reach : GardenContext -> list Event -> Prop :=
| reach_new root ctx :
    newGardenContext root = Ok ctx ->
    reach ctx (map Registered (builtinInstances builtinPlugins (initialContext root)))
| reach_step ctx tr op :
    reach ctx tr -> reach (runOp op ctx) (tr ++ opEvents op ctx).

End Discovery.

(** [parse(item.path).base === MODULE_CONFIG_FILENAME], the test of the
    discovery loop. *)
Definition isModuleConfigFile `{Runtime} (item : string) : bool :=
  String.eqb (path_base item) MODULE_CONFIG_FILENAME.

(** ** A concrete runtime for evaluating the code *)

Definition is_lower (c : ascii) : bool :=
  Nat.leb 97 (nat_of_ascii c) && Nat.leb (nat_of_ascii c) 122.

(** An identifier grammar of the usual shape: a lowercase letter followed by
    lowercase letters, digits and dashes. *)
Definition demoIdentifier (s : string) : bool :=
  match s with
  | EmptyString => false
  | String c rest =>
      is_lower c
      && forallb (fun c => is_lower c || is_digit c || Ascii.eqb c "-") (list_ascii_of_string rest)
  end.

Definition genericModule (cfg : ModuleConfig.t) : GardenModule.t :=
  GardenModule.mk (ModuleConfig.name cfg) (ModuleConfig.type cfg) (ModuleConfig.path cfg) cfg.

Definition demoPlugin (n : string) (types : list string) (parses : bool) (builds : bool)
  : GardenContext -> Plugin.t :=
  fun _ => Plugin.mk n types
             (if parses then Some genericModule else None)
             (if builds then Some (fun m => "ready:" ++ GardenModule.name m) else None)
             (if builds then Some (fun m => n ++ " built " ++ GardenModule.name m) else None).

Definition demoBuiltins : list (GardenContext -> Plugin.t) :=
  [demoPlugin "generic" ["generic"] true true;
   demoPlugin "container" ["container"] true true;
   demoPlugin "generic-function" ["generic-function"] true false;
   demoPlugin "npm-package" ["npm-package"] true true].

Definition demoProjectConfig : ProjectConfig.t :=
  ProjectConfig.mk
    [("local", EnvironmentConfig.mk [("container", ProviderConfig.mk "container")]);
     ("prod", EnvironmentConfig.mk [("container", ProviderConfig.mk "kubernetes");
                                    ("functions", ProviderConfig.mk "google-cloud-functions")])].

(** Every module directory declares a module named after its last segment;
    [dup] declares [a] again, [web] declares service [api] also declared by
    [a]; [py] declares a module of type [python], every other one a
    [container] module. *)
Definition demoModuleConfig (dir : string) : result ModuleConfig.t :=
  let n := path_base dir in
  let n := if String.eqb n "dup" then "a" else n in
  let svcs := if String.eqb n "a" then Some [("api", "a-api")]
              else if String.eqb n "web" then Some [("api", "web-api"); ("www", "web-www")]
              else None in
  let type := if String.eqb n "py" then "python" else "container" in
  Ok (ModuleConfig.mk n type dir svcs).

Definition demoRuntime (scan : list string) : Runtime := {|
  DEFAULT_NAMESPACE := "default";
  MODULE_CONFIG_FILENAME := "garden.yml";
  JoiIdentifier := demoIdentifier;
  scanDirectory := fun _ => scan;
  loadModuleConfig := demoModuleConfig;
  loadProjectConfig := fun _ => Ok demoProjectConfig;
  builtinPlugins := demoBuiltins
|}.

Definition orInitial (r : result GardenContext) (root : string) : GardenContext :=
  match r with Ok c => c | Err _ => initialContext root end.

Definition scanAB : list string :=
  ["/p/a/garden.yml"; "/p/a/src/index.ts"; "/p/b/garden.yml"].
Definition scanDup : list string :=
  ["/p/a/garden.yml"; "/p/dup/garden.yml"].
Definition scanSvc : list string :=
  ["/p/a/garden.yml"; "/p/web/garden.yml"].
Definition scanPy : list string :=
  ["/p/a/garden.yml"; "/p/py/garden.yml"].

Definition demoContext (scan : list string) : GardenContext :=
  orInitial (@newGardenContext (demoRuntime scan) "/p") "/p".

(** The history of the context built by the constructor. *)
Definition demoTrace (scan : list string) : list Event :=
  map Registered (@builtinInstances (demoRuntime scan) (@builtinPlugins (demoRuntime scan))
                    (initialContext "/p")).

Definition rt0 : Runtime := demoRuntime [].
Definition rtAB : Runtime := demoRuntime scanAB.
Definition rtDup : Runtime := demoRuntime scanDup.
Definition rtPy : Runtime := demoRuntime scanPy.

(** A plugin that lists the [python] module type but parses nothing. *)
Definition pythonBuildPlugin : GardenContext -> Plugin.t :=
  demoPlugin "python-build" ["python"] false true.

(** Two overlapping [getModules()] calls: both are issued before either
    resumes; the first runs to completion, a third call is issued, the
    second runs to completion, and a fourth call is issued. *)
Definition overlapSched : list Sched :=
  [Start None; Start None] ++ repeat (Resume 0) 4 ++ [Start None]
  ++ repeat (Resume 1) 4 ++ [Start None].

(** A plugin with no handler, registered under [n]. *)
Definition barePlugin (n : string) : GardenContext -> Plugin.t :=
  fun _ => Plugin.mk n [] None None None.

(** * Properties *)

Open Scope list_scope.

(** ** Plain objects *)

Lemma js_own_set {V} (o : jsobj V) k v k' :
  js_own (js_set o k v) k' = if String.eqb k' k then Some v else js_own o k'.
Proof.
  induction o as [|[k0 v0] o IH]; simpl.
  - destruct (String.eqb k' k); reflexivity.
  - destruct (String.eqb_spec k k0) as [->|Hne]; simpl.
    + destruct (String.eqb k' k0); reflexivity.
    + rewrite IH. destruct (String.eqb_spec k' k0) as [->|]; [|reflexivity].
      destruct (String.eqb_spec k0 k); [congruence|reflexivity].
Qed.

Lemma js_set_fresh {V} (o : jsobj V) k v :
  js_own o k = None -> js_set o k v = o ++ [(k, v)].
Proof.
  induction o as [|[k0 v0] o IH]; simpl; [reflexivity|].
  destruct (String.eqb_spec k k0); [discriminate|].
  intros Hn. now rewrite IH.
Qed.

Lemma js_get_none {V} (o : jsobj V) k :
  js_get o k = None <-> js_own o k = None /\ is_proto_key k = false.
Proof.
  unfold js_get. destruct (js_own o k); [split; [discriminate|intros [? _]; discriminate]|].
  destruct (is_proto_key k); split; intuition discriminate.
Qed.

Definition pluginEntries (ps : list Plugin.t) : jsobj Plugin.t :=
  map (fun p => (Plugin.name p, p)) ps.

Lemma js_own_pluginEntries ps k :
  NoDup (map Plugin.name ps) ->
  js_own (pluginEntries ps) k = find (fun p => String.eqb k (Plugin.name p)) ps.
Proof.
  induction ps as [|p ps IH]; simpl; [reflexivity|].
  intros Hnd. inversion Hnd; subst. destruct (String.eqb k (Plugin.name p)); auto.
Qed.

Lemma js_own_pluginEntries_none ps k :
  js_own (pluginEntries ps) k = None -> ~ In k (map Plugin.name ps).
Proof.
  induction ps as [|p ps IH]; simpl; [tauto|].
  destruct (String.eqb_spec k (Plugin.name p)) as [->|Hne]; [discriminate|].
  intros Hn [Heq|Hin]; [congruence|exact (IH Hn Hin)].
Qed.

Lemma js_own_pluginEntries_in ps p :
  NoDup (map Plugin.name ps) -> In p ps -> js_own (pluginEntries ps) (Plugin.name p) = Some p.
Proof.
  intros Hnd Hin. rewrite js_own_pluginEntries by exact Hnd.
  induction ps as [|q ps IH]; simpl in *; [contradiction|].
  inversion Hnd as [|? ? Hq Hnd']; subst. destruct Hin as [->|Hin].
  - now rewrite String.eqb_refl.
  - destruct (String.eqb_spec (Plugin.name p) (Plugin.name q)) as [He|]; [|auto].
    exfalso. apply Hq. rewrite <- He. now apply in_map.
Qed.

Lemma js_entries_no_index {V} (o : jsobj V) :
  Forall (fun e => is_array_index (fst e) = false) o -> js_entries o = o.
Proof.
  intros Hf. unfold js_entries.
  assert (Hnil : filter (fun e => is_array_index (fst e)) o = []).
  { induction Hf as [|e o He _ IH]; simpl; [reflexivity|]. now rewrite He. }
  rewrite Hnil. simpl.
  induction Hf as [|e o He _ IH]; simpl; [reflexivity|]. rewrite He. simpl. f_equal. apply IH.
  simpl in Hnil. rewrite He in Hnil. exact Hnil.
Qed.

(** ** The monad *)

(** A computation that leaves the context as it found it. *)
Definition readonly {A} (m : M A) : Prop := forall c, fst (m c) = c.

Lemma readonly_ret {A} (a : A) : readonly (ret a).
Proof. intros c; reflexivity. Qed.

Lemma readonly_throw {A} e : readonly (@throw A e).
Proof. intros c; reflexivity. Qed.

Lemma readonly_get : readonly get.
Proof. intros c; reflexivity. Qed.

Lemma readonly_liftResult {A} (r : result A) : readonly (liftResult r).
Proof. intros c; reflexivity. Qed.

Lemma readonly_bind {A B} (m : M A) (k : A -> M B) :
  readonly m -> (forall a, readonly (k a)) -> readonly (bind m k).
Proof.
  intros Hm Hk c. unfold bind. specialize (Hm c).
  destruct (m c) as [c' [a|e]]; simpl in *; subst; [apply Hk|reflexivity].
Qed.

Lemma readonly_state {A} (m : M A) c : readonly m -> m c = (c, snd (m c)).
Proof. intros Hm. specialize (Hm c). destruct (m c); simpl in *; congruence. Qed.

Create HintDb readonly.
#[local] Hint Resolve readonly_ret readonly_throw readonly_get readonly_liftResult
  readonly_bind : readonly.

Ltac readonly_tac :=
  repeat first
    [ progress (intros; simpl)
    | apply readonly_bind
    | match goal with
      | |- readonly (match ?x with _ => _ end) => destruct x
      | |- readonly (let '(_, _) := ?x in _) => destruct x
      end
    | solve [eauto with readonly] ].

Section Readonly.
Context `{Runtime}.

Lemma readonly_getEnvironment : readonly getEnvironment.
Proof. unfold getEnvironment. readonly_tac. Qed.

Lemma readonly_getAllPlugins mt : readonly (getAllPlugins mt).
Proof. unfold getAllPlugins. readonly_tac. Qed.

Lemma readonly_getEnvPlugins mt : readonly (getEnvPlugins mt).
Proof.
  unfold getEnvPlugins. apply readonly_bind; [apply readonly_getEnvironment|intros env].
  apply readonly_bind; [apply readonly_getAllPlugins|intros ps]. readonly_tac.
Qed.

Lemma readonly_getActionHandler a mt : readonly (getActionHandler a mt).
Proof.
  unfold getActionHandler. apply readonly_bind; [apply readonly_getAllPlugins|]. readonly_tac.
Qed.

Lemma readonly_getEnvActionHandler a mt : readonly (getEnvActionHandler a mt).
Proof.
  unfold getEnvActionHandler. apply readonly_bind; [apply readonly_getEnvPlugins|].
  intros ps. destruct (find _ _); [readonly_tac|].
  apply readonly_bind; [apply readonly_getEnvironment|]. readonly_tac.
Qed.

Lemma readonly_addServices m cfg es ss : readonly (addServices m cfg es ss).
Proof.
  revert ss. induction es as [|[s r] es IH]; intros ss; simpl; [readonly_tac|].
  destruct (js_get ss s) as [[|]|]; eauto with readonly.
Qed.

Lemma readonly_discoverItem item acc : readonly (discoverItem item acc).
Proof.
  unfold discoverItem. destruct acc as [ms ss].
  destruct (String.eqb _ _); [|readonly_tac].
  apply readonly_bind; [apply readonly_liftResult|intros cfg].
  destruct (js_get ms _); [readonly_tac|].
  apply readonly_bind; [apply readonly_getActionHandler|intros h].
  apply readonly_bind; [unfold callParse; readonly_tac|intros m].
  apply readonly_bind; [apply readonly_addServices|readonly_tac].
Qed.

Lemma readonly_discover items acc : readonly (discover items acc).
Proof.
  revert acc. induction items as [|i items IH]; intros acc; simpl; [readonly_tac|].
  apply readonly_bind; [apply readonly_discoverItem|exact IH].
Qed.

End Readonly.

Lemma bind_ok {A B} (m : M A) (k : A -> M B) c c' b :
  bind m k c = (c', Ok b) -> exists c1 a, m c = (c1, Ok a) /\ k a c1 = (c', Ok b).
Proof.
  unfold bind. destruct (m c) as [c1 [a|e]]; [eauto|discriminate].
Qed.

Lemma NoDup_snoc {A} (l : list A) x : NoDup l -> ~ In x l -> NoDup (l ++ [x]).
Proof.
  induction l as [|y l IH]; simpl; intros Hnd Hx.
  - constructor; [tauto|constructor].
  - inversion Hnd as [|? ? Hy Hnd']; subst. constructor.
    + rewrite in_app_iff. simpl. intuition.
    + apply IH; tauto.
Qed.

(** ** Histories *)

Lemma registeredPlugins_app tr tr' :
  registeredPlugins (tr ++ tr') = registeredPlugins tr ++ registeredPlugins tr'.
Proof. induction tr as [|[] tr IH]; simpl; congruence. Qed.

Lemma registeredPlugins_map ps : registeredPlugins (map Registered ps) = ps.
Proof. induction ps; simpl; congruence. Qed.

Lemma lastEnvironment_map ps : lastEnvironment (map Registered ps) = None.
Proof. induction ps; simpl; auto. Qed.

Lemma lastEnvironment_app tr tr' :
  lastEnvironment (tr ++ tr') =
  match lastEnvironment tr' with Some p => Some p | None => lastEnvironment tr end.
Proof.
  induction tr as [|[p|n ns] tr IH]; simpl.
  - destruct (lastEnvironment tr'); reflexivity.
  - exact IH.
  - rewrite IH. destruct (lastEnvironment tr'), (lastEnvironment tr); reflexivity.
Qed.

(** ** What each method does to the context *)

Lemma bindActions_own p n m a k :
  js_own (actionMapGet (bindActions p n m) a) k =
  if String.eqb k n
  then match pluginAction p a with
       | Some h => Some h
       | None => js_own (actionMapGet m a) k
       end
  else js_own (actionMapGet m a) k.
Proof.
  unfold bindActions, pluginActionNames. simpl.
  destruct a; simpl;
    destruct (Plugin.parseModule p), (Plugin.getModuleBuildStatus p), (Plugin.buildModule p);
    simpl; rewrite ?js_own_set; destruct (String.eqb k n); reflexivity.
Qed.

Section Effects.
Context `{Runtime}.

Lemma registerPlugin_unfold f ctx :
  registerPlugin f ctx =
  if JoiIdentifier (Plugin.name (f ctx)) then
    match js_get (plugins ctx) (Plugin.name (f ctx)) with
    | Some previous =>
        (ctx, Err (PluginError ("Plugin " ++ Plugin.name (f ctx) ++ " declared more than once")%string
                     (DPluginConflict previous (f ctx))))
    | None =>
        (setActionHandlers
           (setPlugins ctx (js_set (plugins ctx) (Plugin.name (f ctx)) (f ctx)))
           (bindActions (f ctx) (Plugin.name (f ctx)) (actionHandlers ctx)), Ok tt)
    end
  else (ctx, Err (ValidationError (Plugin.name (f ctx)))).
Proof.
  unfold registerPlugin, joiAttemptIdentifier, bind, get, ret, throw, put.
  destruct (JoiIdentifier _); [|reflexivity]. destruct (js_get _ _); reflexivity.
Qed.

Lemma setEnvironment_unfold s ctx :
  setEnvironment s ctx =
  let parts := split_on "." s in
  let name := hd "" parts in
  let ns := str_or (join "." (tl parts)) DEFAULT_NAMESPACE in
  match js_get (ProjectConfig.environments (config ctx)) name with
  | None => (ctx, Err (ParameterError ("Could not find environment " ++ s)%string
                         (DEnvironment name ns)))
  | Some _ => (setEnvironmentFields ctx name ns, Ok (name, ns))
  end.
Proof.
  unfold setEnvironment, bind, get, ret, throw, put. simpl.
  destruct (js_get _ _); reflexivity.
Qed.

Lemma getModules_cases names ctx :
  (exists idx, modules ctx = Some idx /\
     getModules names ctx = (ctx, Ok (pickView names (Some idx)))) \/
  (modules ctx = None /\
   ((exists e, discover (scanDirectory (projectRoot ctx)) ([], []) (countScan ctx)
                 = (countScan ctx, Err e) /\
               getModules names ctx = (countScan ctx, Err e)) \/
    (exists ms ss, discover (scanDirectory (projectRoot ctx)) ([], []) (countScan ctx)
                     = (countScan ctx, Ok (ms, ss)) /\
                   getModules names ctx
                     = (setIndexes (countScan ctx) ms ss, Ok (pickView names (Some ms)))))).
Proof.
  unfold getModules, bind, get, put, ret.
  destruct (modules ctx) as [idx|] eqn:Hm; [left; exists idx; now rewrite Hm|right].
  split; [reflexivity|].
  rewrite (readonly_state _ (countScan ctx) (readonly_discover _ _)).
  destruct (snd (discover _ _ (countScan ctx))) as [[ms ss]|e]; [right|left]; eauto.
Qed.

Lemma getServices_state names ctx :
  fst (getServices names ctx) = fst (getModules None ctx).
Proof.
  unfold getServices, bind. destruct (getModules None ctx) as [c [r|e]]; reflexivity.
Qed.

(** The only effects on the fields: [registerPlugin] on the registry,
    [setEnvironment] on the active environment, [getModules] on the indexes
    and the scan count. *)
Lemma runOp_config op ctx : config (runOp op ctx) = config ctx /\ projectRoot (runOp op ctx) = projectRoot ctx.
Proof.
  destruct op; simpl.
  - rewrite registerPlugin_unfold. destruct (JoiIdentifier _); [destruct (js_get _ _)|]; auto.
  - rewrite setEnvironment_unfold. simpl. destruct (js_get _ _); auto.
  - rewrite readonly_getEnvironment; auto.
  - destruct (getModules_cases names ctx) as [(? & _ & ->)|(_ & [(? & _ & ->)|(? & ? & _ & ->)])]; auto.
  - rewrite getServices_state.
    destruct (getModules_cases None ctx) as [(? & _ & ->)|(_ & [(? & _ & ->)|(? & ? & _ & ->)])]; auto.
  - rewrite readonly_getActionHandler; auto.
  - rewrite readonly_getEnvActionHandler; auto.
Qed.

Lemma runOp_modules op ctx idx :
  modules ctx = Some idx ->
  modules (runOp op ctx) = Some idx /\ services (runOp op ctx) = services ctx /\
  scanCount (runOp op ctx) = scanCount ctx.
Proof.
  intros Hm. destruct op; simpl.
  - rewrite registerPlugin_unfold. destruct (JoiIdentifier _); [destruct (js_get _ _)|]; auto.
  - rewrite setEnvironment_unfold. simpl. destruct (js_get _ _); auto.
  - rewrite readonly_getEnvironment; auto.
  - destruct (getModules_cases names ctx) as [(? & _ & ->)|(Hn & _)]; [auto|congruence].
  - rewrite getServices_state.
    destruct (getModules_cases None ctx) as [(? & _ & ->)|(Hn & _)]; [auto|congruence].
  - rewrite readonly_getActionHandler; auto.
  - rewrite readonly_getEnvActionHandler; auto.
Qed.

End Effects.

(** ** The indexes built by one discovery pass *)

(** Every indexed service's owning module is in the module index. *)
Definition owners (ms : jsobj GardenModule.t) (ss : jsobj Service.t) : Prop :=
  forall s svc, js_own ss s = Some svc -> exists n, js_own ms n = Some (Service.module svc).

Section Pass.
Context `{Runtime}.

Lemma addServices_owners ms m n cfg es ss c c' ss' :
  js_own ms n = Some m -> owners ms ss ->
  addServices m cfg es ss c = (c', Ok ss') -> owners ms ss'.
Proof.
  intros Hn. revert ss c. induction es as [|[s r] es IH]; intros ss c Hown; simpl.
  - intros Heq. inversion Heq; subst. exact Hown.
  - destruct (js_get ss s) as [[prev|k]|] eqn:Hg; [discriminate|discriminate|].
    apply IH. intros s' svc. rewrite js_own_set.
    destruct (String.eqb s' s); [|apply Hown].
    intros Heq. inversion Heq; subst. simpl. eauto.
Qed.

Lemma discoverItem_owners item ms ss c c' ms' ss' :
  owners ms ss -> discoverItem item (ms, ss) c = (c', Ok (ms', ss')) -> owners ms' ss'.
Proof.
  intros Hown. unfold discoverItem.
  destruct (String.eqb _ _); [|intros Heq; inversion Heq; subst; exact Hown].
  intros Hd. apply bind_ok in Hd as (c1 & cfg & Hl & Hk).
  unfold liftResult in Hl. destruct (loadModuleConfig _); inversion Hl; subst.
  destruct (js_get ms (ModuleConfig.name cfg)) eqn:Hg.
  { apply bind_ok in Hk as (? & ? & _ & Hk). discriminate. }
  apply js_get_none in Hg as [Hg _].
  apply bind_ok in Hk as (c2 & h & _ & Hk).
  apply bind_ok in Hk as (c3 & m & _ & Hk).
  apply bind_ok in Hk as (c4 & ss2 & Ha & Hk).
  unfold ret in Hk. inversion Hk; subst.
  eapply addServices_owners; [| |exact Ha].
  - rewrite js_own_set, String.eqb_refl. reflexivity.
  - intros s svc Hs. destruct (Hown s svc Hs) as [k Hk']. exists k.
    rewrite js_own_set. destruct (String.eqb_spec k (ModuleConfig.name cfg)) as [->|]; congruence.
Qed.

Lemma discover_owners items ms ss c c' ms' ss' :
  owners ms ss -> discover items (ms, ss) c = (c', Ok (ms', ss')) -> owners ms' ss'.
Proof.
  revert ms ss c. induction items as [|i items IH]; intros ms ss c Hown; simpl.
  - intros Heq. inversion Heq; subst. exact Hown.
  - intros Hd. apply bind_ok in Hd as (c1 & [ms1 ss1] & Hi & Hr).
    apply (IH ms1 ss1 c1); [|exact Hr]. exact (discoverItem_owners _ _ _ _ _ _ _ Hown Hi).
Qed.

End Pass.

(** ** The invariant of every context a caller can hold *)

Section Invariant.
Context `{Runtime}.

Record Inv (ctx : GardenContext) (tr : list Event) : Prop := {
  inv_plugins : plugins ctx = pluginEntries (registeredPlugins tr);
  inv_names : Forall (fun p => JoiIdentifier (Plugin.name p) = true /\
                               is_proto_key (Plugin.name p) = false)
                (registeredPlugins tr);
  inv_nodup : NoDup (map Plugin.name (registeredPlugins tr));
  inv_handlers : forall a k,
    js_own (actionMapGet (actionHandlers ctx) a) k =
    match js_own (plugins ctx) k with Some p => pluginAction p a | None => None end;
  inv_env : environment ctx = option_map fst (lastEnvironment tr);
  inv_ns : namespace ctx = option_map snd (lastEnvironment tr);
  inv_env_known : forall n ns, lastEnvironment tr = Some (n, ns) ->
    js_get (ProjectConfig.environments (config ctx)) n <> None;
  inv_committed : modules ctx = None <-> services ctx = None;
  inv_owners : forall ms ss, modules ctx = Some ms -> services ctx = Some ss -> owners ms ss
}.

Lemma Inv_initial root : Inv (initialContext root) [].
Proof.
  constructor; simpl; try tauto; try discriminate.
  - constructor.
  - constructor.
  - destruct a; reflexivity.
Qed.

Lemma Inv_registerPlugin ctx tr f :
  Inv ctx tr ->
  Inv (fst (registerPlugin f ctx))
      (tr ++ match snd (registerPlugin f ctx) with
             | Ok _ => [Registered (f ctx)]
             | Err _ => []
             end).
Proof.
  intros HI. rewrite registerPlugin_unfold.
  destruct (JoiIdentifier (Plugin.name (f ctx))) eqn:Hj;
    [|simpl; now rewrite app_nil_r].
  destruct (js_get (plugins ctx) (Plugin.name (f ctx))) eqn:Hg;
    [simpl; now rewrite app_nil_r|].
  apply js_get_none in Hg as [Hown Hproto]. simpl.
  pose proof (inv_plugins _ _ HI) as Hp.
  assert (Hnew : js_set (plugins ctx) (Plugin.name (f ctx)) (f ctx)
                 = pluginEntries (registeredPlugins tr ++ [f ctx])).
  { rewrite js_set_fresh by exact Hown. rewrite Hp. unfold pluginEntries.
    now rewrite map_app. }
  constructor; simpl.
  - now rewrite registeredPlugins_app, Hnew.
  - rewrite registeredPlugins_app. apply Forall_app. split; [exact (inv_names _ _ HI)|].
    simpl. constructor; [auto|constructor].
  - rewrite registeredPlugins_app, map_app. simpl. apply NoDup_snoc; [exact (inv_nodup _ _ HI)|].
    rewrite Hp in Hown. exact (js_own_pluginEntries_none _ _ Hown).
  - intros a k. rewrite bindActions_own, js_own_set, (inv_handlers _ _ HI).
    destruct (String.eqb_spec k (Plugin.name (f ctx))) as [->|]; [|reflexivity].
    rewrite Hown. destruct (pluginAction (f ctx) a); reflexivity.
  - rewrite lastEnvironment_app. exact (inv_env _ _ HI).
  - rewrite lastEnvironment_app. exact (inv_ns _ _ HI).
  - rewrite lastEnvironment_app. exact (inv_env_known _ _ HI).
  - exact (inv_committed _ _ HI).
  - exact (inv_owners _ _ HI).
Qed.

Lemma Inv_readonly ctx tr ctx' : Inv ctx tr -> ctx' = ctx -> Inv ctx' (tr ++ []).
Proof. intros HI ->. now rewrite app_nil_r. Qed.

Lemma Inv_setEnvironment ctx tr s :
  Inv ctx tr ->
  Inv (fst (setEnvironment s ctx))
      (tr ++ match snd (setEnvironment s ctx) with
             | Ok (n, ns) => [EnvironmentSet n ns]
             | Err _ => []
             end).
Proof.
  intros HI. rewrite setEnvironment_unfold. simpl.
  destruct (js_get _ _) eqn:Hg; [|simpl; now rewrite app_nil_r].
  simpl. constructor; simpl; rewrite ?registeredPlugins_app, ?lastEnvironment_app; simpl;
    rewrite ?app_nil_r.
  - exact (inv_plugins _ _ HI).
  - exact (inv_names _ _ HI).
  - exact (inv_nodup _ _ HI).
  - exact (inv_handlers _ _ HI).
  - reflexivity.
  - reflexivity.
  - intros n ns Heq. inversion Heq; subst. rewrite Hg. discriminate.
  - exact (inv_committed _ _ HI).
  - exact (inv_owners _ _ HI).
Qed.

Lemma Inv_getModules ctx tr names :
  Inv ctx tr -> Inv (fst (getModules names ctx)) (tr ++ []).
Proof.
  intros HI. rewrite app_nil_r.
  destruct (getModules_cases names ctx)
    as [(idx & _ & ->)|(Hm & [(e & _ & ->)|(ms & ss & Hd & ->)])]; simpl; [exact HI| |];
    constructor; simpl; try apply HI.
  - split; discriminate.
  - intros ms' ss' H1 H2. inversion H1; inversion H2; subst.
    eapply discover_owners; [|exact Hd]. intros s svc Hs. discriminate.
Qed.

Lemma Inv_runOp ctx tr op : Inv ctx tr -> Inv (runOp op ctx) (tr ++ opEvents op ctx).
Proof.
  intros HI. destruct op; simpl.
  - apply Inv_registerPlugin, HI.
  - apply Inv_setEnvironment, HI.
  - apply (Inv_readonly _ _ _ HI), readonly_getEnvironment.
  - apply Inv_getModules, HI.
  - rewrite getServices_state. apply Inv_getModules, HI.
  - apply (Inv_readonly _ _ _ HI), readonly_getActionHandler.
  - apply (Inv_readonly _ _ _ HI), readonly_getEnvActionHandler.
Qed.

Lemma Inv_registerPlugins fs ctx tr ctx' :
  Inv ctx tr -> registerPlugins fs ctx = (ctx', Ok tt) ->
  Inv ctx' (tr ++ map Registered (builtinInstances fs ctx)).
Proof.
  revert ctx tr. induction fs as [|f fs IH]; intros ctx tr HI Hr; simpl in *.
  - inversion Hr; subst. now rewrite app_nil_r.
  - apply bind_ok in Hr as (c1 & [] & Hf & Hr).
    pose proof (Inv_registerPlugin _ _ f HI) as HI1. rewrite Hf in HI1. simpl in HI1.
    rewrite Hf. simpl. specialize (IH _ _ HI1 Hr). now rewrite <- app_assoc in IH.
Qed.

Lemma Inv_newGardenContext root ctx :
  newGardenContext root = Ok ctx ->
  Inv ctx (map Registered (builtinInstances builtinPlugins (initialContext root))).
Proof.
  unfold newGardenContext.
  destruct (registerPlugins builtinPlugins (initialContext root)) as [c [[]|e]] eqn:Hr;
    [|discriminate].
  destruct (loadProjectConfig root) as [cfg|e]; [|discriminate].
  intros Heq. inversion Heq; subst.
  pose proof (Inv_registerPlugins _ _ _ _ (Inv_initial root) Hr) as HI. simpl in HI.
  constructor; simpl; try apply HI.
  intros n ns. rewrite lastEnvironment_map. discriminate.
Qed.

Lemma reach_Inv ctx tr : reach ctx tr -> Inv ctx tr.
Proof.
  induction 1.
  - now apply Inv_newGardenContext.
  - now apply Inv_runOp.
Qed.

End Invariant.

(** ** Resolution over the registry *)

Lemma filterModuleType_incl mt l p : In p (filterModuleType mt l) -> In p l.
Proof.
  unfold filterModuleType. destruct mt as [m|]; [|auto].
  destruct (String.eqb m ""); [auto|]. rewrite filter_In. tauto.
Qed.

Section Resolution.
Context `{Runtime}.

(** The identifier grammar admits no array index, so [values(this.plugins)]
    enumerates the plugins in creation order. *)
Hypothesis identifier_not_index :
  forall s, JoiIdentifier s = true -> is_array_index s = false.

Lemma Inv_values ctx tr : Inv ctx tr -> js_values (plugins ctx) = registeredPlugins tr.
Proof.
  intros HI. unfold js_values. rewrite (inv_plugins _ _ HI), js_entries_no_index.
  - unfold pluginEntries. rewrite map_map. simpl. apply map_id.
  - pose proof (inv_names _ _ HI) as Hn. unfold pluginEntries.
    apply Forall_map. eapply Forall_impl; [|exact Hn]. simpl. intros p [Hj _].
    now apply identifier_not_index.
Qed.

End Resolution.

Section Handlers.
Context `{Runtime}.

Lemma Inv_handler ctx tr p a :
  Inv ctx tr -> In p (registeredPlugins tr) ->
  js_get (actionMapGet (actionHandlers ctx) a) (Plugin.name p) = option_map JOwn (pluginAction p a).
Proof.
  intros HI Hin. unfold js_get. rewrite (inv_handlers _ _ HI), (inv_plugins _ _ HI).
  rewrite (js_own_pluginEntries_in _ _ (inv_nodup _ _ HI) Hin).
  destruct (pluginAction p a); [reflexivity|].
  pose proof (inv_names _ _ HI) as Hn. rewrite Forall_forall in Hn.
  destruct (Hn p Hin) as [_ ->]. reflexivity.
Qed.

Lemma getActionHandler_unfold a mt ctx :
  getActionHandler a mt ctx =
  (ctx, match find (implementsAction a) (filterModuleType mt (js_values (plugins ctx))) with
        | Some p => Ok (js_get (actionMapGet (actionHandlers ctx) a) (Plugin.name p))
        | None => Err (ParameterError (noHandlerMessage a mt) (DNoHandler a mt))
        end).
Proof.
  unfold getActionHandler, getAllPlugins, bind, get, ret, throw. simpl.
  destruct (find _ _); reflexivity.
Qed.

Lemma getEnvActionHandler_unfold a mt ctx env cfg :
  getEnvironment ctx = (ctx, Ok env) -> Environment.config env = Some cfg ->
  getEnvActionHandler a mt ctx =
  (ctx, match find (implementsAction a)
                (filter (fun p => existsb (String.eqb (Plugin.name p)) (envProviderTypes cfg))
                   (filterModuleType mt (js_values (plugins ctx)))) with
        | Some p => Ok (js_get (actionMapGet (actionHandlers ctx) a) (Plugin.name p))
        | None => Err (ParameterError (noEnvHandlerMessage a mt (Environment.name env))
                         (DNoEnvHandler a mt (Environment.name env)))
        end).
Proof.
  intros Henv Hcfg.
  unfold getEnvActionHandler, getEnvPlugins, getAllPlugins, bind, get, ret, throw.
  rewrite Henv. simpl. rewrite Hcfg.
  destruct (find _ _); [reflexivity|]. rewrite Henv. reflexivity.
Qed.

Lemma reach_builtins_first ctx tr :
  reach ctx tr ->
  exists root rest,
    registeredPlugins tr = builtinInstances builtinPlugins (initialContext root) ++ rest.
Proof.
  induction 1 as [root ctx _|ctx tr op _ [root [rest IH]]].
  - exists root, []. now rewrite registeredPlugins_map, app_nil_r.
  - exists root, (rest ++ registeredPlugins (opEvents op ctx)).
    now rewrite registeredPlugins_app, IH, app_assoc.
Qed.

End Handlers.

Section EnvironmentLemmas.
Context `{Runtime}.

Lemma getEnvironment_ok ctx c env :
  getEnvironment ctx = (c, Ok env) ->
  c = ctx /\ exists n, environment ctx = Some n /\ n <> "" /\
    env = Environment.mk n (namespace ctx) (js_get (ProjectConfig.environments (config ctx)) n).
Proof.
  unfold getEnvironment, bind, get, ret, throw.
  destruct (environment ctx) as [[|c0 s]|] eqn:He; intros Heq; inversion Heq; subst;
    split; auto.
  exists (String c0 s). repeat split; [discriminate].
Qed.

Lemma getEnvironment_config ctx tr env :
  Inv ctx tr -> getEnvironment ctx = (ctx, Ok env) ->
  exists cfg, Environment.config env = Some cfg.
Proof.
  intros HI Henv. apply getEnvironment_ok in Henv as [_ [n [Hn [_ ->]]]]. simpl.
  rewrite (inv_env _ _ HI) in Hn.
  destruct (lastEnvironment tr) as [[n' ns]|] eqn:Hl; inversion Hn; subst.
  pose proof (inv_env_known _ _ HI _ _ Hl) as Hk.
  destruct (js_get _ _) as [cfg|]; [eauto|congruence].
Qed.

End EnvironmentLemmas.

(** ** Discovery passes, piece by piece *)

Lemma discover_app `{Runtime} l1 l2 acc c :
  discover (l1 ++ l2) acc c = bind (discover l1 acc) (discover l2) c.
Proof.
  revert acc c. induction l1 as [|i l1 IH]; intros acc c; simpl; [reflexivity|].
  unfold bind. destruct (discoverItem i acc c) as [c1 [a|e]]; [rewrite IH; reflexivity|reflexivity].
Qed.

Lemma addServices_app `{Runtime} m cfg l1 l2 ss c :
  addServices m cfg (l1 ++ l2) ss c = bind (addServices m cfg l1 ss) (addServices m cfg l2) c.
Proof.
  revert ss c. induction l1 as [|[s r] l1 IH]; intros ss c; simpl; [reflexivity|].
  destruct (js_get ss s) as [[|]|]; [reflexivity|reflexivity|rewrite IH; reflexivity].
Qed.

Lemma getModules_discover_err `{Runtime} names ctx c e :
  modules ctx = None ->
  discover (scanDirectory (projectRoot ctx)) ([], []) (countScan ctx) = (c, Err e) ->
  getModules names ctx = (countScan ctx, Err e).
Proof.
  intros Hm Hd.
  destruct (getModules_cases names ctx)
    as [(idx & Hs & _)|(_ & [(e' & Hd' & ->)|(ms & ss & Hd' & _)])]; congruence.
Qed.

Lemma find_none_Forall {A} (f : A -> bool) l :
  Forall (fun x => f x = false) l -> find f l = None.
Proof. induction 1 as [|x l Hx _ IH]; simpl; [reflexivity|]. now rewrite Hx. Qed.

Lemma js_own_pluginEntries_notin ps k :
  ~ In k (map Plugin.name ps) -> js_own (pluginEntries ps) k = None.
Proof.
  induction ps as [|p ps IH]; simpl; [reflexivity|]. intros Hn.
  destruct (String.eqb_spec k (Plugin.name p)); [exfalso; auto|]. apply IH. tauto.
Qed.

Lemma js_own_pluginEntries_name ps k :
  In k (map Plugin.name ps) -> exists p, js_own (pluginEntries ps) k = Some p.
Proof.
  induction ps as [|p ps IH]; simpl; [tauto|]. intros Hin.
  destruct (String.eqb_spec k (Plugin.name p)); [eauto|]. apply IH. intuition congruence.
Qed.

Lemma runSched_settled `{Runtime} n ctx cb f r :
  runSched (repeat (Resume 0) n) (mkWorld ctx cb [Settled f r]) = mkWorld ctx cb [Settled f r].
Proof. induction n as [|n IH]; [reflexivity|]. exact IH. Qed.

(** A call in flight alone, resumed until it settles, runs the discovery
    pass of [getModules] and then its commit. *)
Lemma runSched_alone `{Runtime} names pass items acc ctx cb :
  runSched (repeat (Resume 0) (S (length items))) (mkWorld ctx cb [Scanning names pass items acc])
  = match discover items acc ctx with
    | (ctx', Ok (ms, ss)) =>
        mkWorld (setIndexes ctx' ms ss) (Some pass) [Settled (Some pass) (Ok (pickView names (Some ms)))]
    | (ctx', Err e) => mkWorld ctx' cb [Settled None (Err e)]
    end.
Proof.
  revert acc ctx. induction items as [|item rest IH]; intros acc ctx.
  - destruct acc as [ms ss]. reflexivity.
  - change (runSched (repeat (Resume 0) (S (length (item :: rest))))
              (mkWorld ctx cb [Scanning names pass (item :: rest) acc]))
      with (runSched (repeat (Resume 0) (S (length rest)))
              (resume 0 (mkWorld ctx cb [Scanning names pass (item :: rest) acc]))).
    unfold resume. simpl nth_error. cbv iota beta. unfold resumeCall.
    simpl discover. unfold bind. cbn [wctx committedBy calls].
    destruct (discoverItem item acc ctx) as [c1 [acc'|e]]; cbn [replace_nth].
    + apply IH.
    + apply runSched_settled.
Qed.

(** [getModules] is the call issued with no other call in flight and resumed
    until it settles. *)
Lemma getModules_alone `{Runtime} names ctx cb :
  let w := runSched (Start names :: repeat (Resume 0) (S (length (scanDirectory (projectRoot ctx)))))
             (mkWorld ctx cb []) in
  wctx w = fst (getModules names ctx) /\ map callResult (calls w) = [Some (snd (getModules names ctx))].
Proof.
  cbv zeta.
  change (runSched (Start names :: repeat (Resume 0) (S (length (scanDirectory (projectRoot ctx)))))
            (mkWorld ctx cb []))
    with (runSched (repeat (Resume 0) (S (length (scanDirectory (projectRoot ctx)))))
            (startCall names (mkWorld ctx cb []))).
  destruct (getModules_cases names ctx)
    as [(idx & Hm & Hg)|(Hm & [(e & Hd & Hg)|(ms & ss & Hd & Hg)])];
    rewrite Hg; unfold startCall; cbn [wctx committedBy calls app]; rewrite Hm.
  - rewrite runSched_settled. simpl. auto.
  - rewrite (runSched_alone names _ _ _ (countScan ctx)).
    change (projectRoot (countScan ctx)) with (projectRoot ctx). rewrite Hd. auto.
  - rewrite (runSched_alone names _ _ _ (countScan ctx)).
    change (projectRoot (countScan ctx)) with (projectRoot ctx). rewrite Hd. auto.
Qed.

Lemma runOps_modules `{Runtime} ops ctx idx :
  modules ctx = Some idx ->
  modules (runOps ops ctx) = Some idx /\ scanCount (runOps ops ctx) = scanCount ctx.
Proof.
  revert ctx. induction ops as [|op ops IH]; intros ctx Hm; simpl; [auto|].
  destruct (runOp_modules op ctx idx Hm) as (Hm' & _ & Hc).
  destruct (IH _ Hm') as [? ?]. split; congruence.
Qed.

(** The demo grammar admits no array index: an identifier starts with a
    lowercase letter. *)
Lemma demoIdentifier_not_index s :
  demoIdentifier s = true -> is_array_index s = false.
Proof.
  destruct s as [|c s]; simpl; [discriminate|]. intros H.
  apply andb_prop in H as [Hl _]. unfold is_lower in Hl.
  apply andb_prop in Hl as [H1 _]. apply Nat.leb_le in H1.
  unfold is_array_index, array_index_value.
  assert (Hd : is_digit c = false).
  { unfold is_digit. destruct (Nat.leb 48 _) eqn:E1; [|reflexivity].
    destruct (Nat.leb (nat_of_ascii c) 57) eqn:E2; [|reflexivity].
    apply Nat.leb_le in E2. lia. }
  now rewrite Hd.
Qed.

(** ** The claims *)

Section Claims.
Context `{Runtime}.

Hypothesis identifier_not_index :
  forall s, JoiIdentifier s = true -> is_array_index s = false.

(** C1 (amended).  In every context a caller can hold, the registered
    plugins start with the built-ins in their fixed order, and global
    resolution [getActionHandler(type, moduleType)] scans them in registration
    order, restricted to the plugins supporting [moduleType] when a non-empty
    one is given (an empty module type is treated like an absent one), and
    returns the handler of the first plugin implementing [type]. *)
Theorem getActionHandler_first_registered ctx tr a mt :
  reach ctx tr ->
  (exists root rest,
     registeredPlugins tr = builtinInstances builtinPlugins (initialContext root) ++ rest) /\
  getActionHandler a mt ctx =
  (ctx, match find (implementsAction a) (filterModuleType mt (registeredPlugins tr)) with
        | Some p => Ok (option_map JOwn (pluginAction p a))
        | None => Err (ParameterError (noHandlerMessage a mt) (DNoHandler a mt))
        end).
Proof.
  intros Hr. split; [exact (reach_builtins_first _ _ Hr)|].
  pose proof (reach_Inv _ _ Hr) as HI.
  rewrite getActionHandler_unfold, (Inv_values identifier_not_index _ _ HI).
  destruct (find _ _) as [p|] eqn:Hf; [|reflexivity].
  apply find_some in Hf as [Hin _]. apply filterModuleType_incl in Hin.
  now rewrite (Inv_handler _ _ _ _ HI Hin).
Qed.

(** C2.  With an active environment, environment-scoped resolution
    [getEnvActionHandler] keeps, among the plugins left by the module-type
    restriction, exactly those whose identifier is one of the provider types
    configured for the environment, returns the handler of the first of them
    in registration order that implements the capability, and never returns
    a handler of a plugin outside that provider-type set. *)
Theorem getEnvActionHandler_env_scoped ctx tr a mt env :
  reach ctx tr -> snd (getEnvironment ctx) = Ok env ->
  exists cfg, Environment.config env = Some cfg /\
  getEnvActionHandler a mt ctx =
  (ctx, match find (implementsAction a)
                (filter (fun p => existsb (String.eqb (Plugin.name p)) (envProviderTypes cfg))
                   (filterModuleType mt (registeredPlugins tr))) with
        | Some p => Ok (option_map JOwn (pluginAction p a))
        | None => Err (ParameterError (noEnvHandlerMessage a mt (Environment.name env))
                         (DNoEnvHandler a mt (Environment.name env)))
        end) /\
  (forall h, snd (getEnvActionHandler a mt ctx) = Ok (Some (JOwn h)) ->
     exists p, In p (registeredPlugins tr) /\ In (Plugin.name p) (envProviderTypes cfg) /\
               pluginAction p a = Some h).
Proof.
  intros Hr Hsnd. pose proof (reach_Inv _ _ Hr) as HI.
  assert (Henv : getEnvironment ctx = (ctx, Ok env)).
  { rewrite (readonly_state _ ctx readonly_getEnvironment), Hsnd. reflexivity. }
  destruct (getEnvironment_config _ _ _ HI Henv) as [cfg Hcfg].
  exists cfg. split; [exact Hcfg|].
  rewrite (getEnvActionHandler_unfold _ _ _ _ _ Henv Hcfg), (Inv_values identifier_not_index _ _ HI).
  destruct (find _ _) as [p|] eqn:Hf.
  - apply find_some in Hf as [Hin Himpl].
    rewrite filter_In in Hin. destruct Hin as [Hin Hty].
    apply filterModuleType_incl in Hin.
    rewrite (Inv_handler _ _ _ _ HI Hin). split; [reflexivity|].
    simpl. intros h Hh. exists p. split; [exact Hin|]. split.
    + apply existsb_exists in Hty as [t [Ht Heq]]. apply String.eqb_eq in Heq. now subst.
    + destruct (pluginAction p a); inversion Hh; reflexivity.
  - split; [reflexivity|]. simpl. discriminate.
Qed.

(** Repeated names in a discovery pass (see C3).  During the discovery pass
    of [getModules] (first call, nothing cached), let [item] be a module
    declaration scanned after the entries [pre], which were indexed into
    [(ms, ss)] without error.  If its declared name is already indexed (by
    module [m]) the call fails with a [ConfigurationError] whose payload names
    [m]'s recorded path ([pathA], taken as is) and the path of [item] relative
    to the project root ([pathB], made relative); otherwise, once
    it is parsed, a service name of its declaration that is already in the
    service index (from a prior module or earlier in this declaration) makes
    the call fail with a [ConfigurationError] naming the module that owns the
    indexed service and this declaration's module name. *)
Theorem getModules_duplicate_names names ctx pre item post ms ss cfg :
  modules ctx = None ->
  scanDirectory (projectRoot ctx) = pre ++ item :: post ->
  discover pre ([], []) (countScan ctx) = (countScan ctx, Ok (ms, ss)) ->
  path_base item = MODULE_CONFIG_FILENAME ->
  loadModuleConfig (path_dir item) = Ok cfg ->
  (forall m, js_own ms (ModuleConfig.name cfg) = Some m ->
     exists msg, getModules names ctx =
       (countScan ctx, Err (ConfigurationError msg
          (DModulePaths (Some (GardenModule.path m)) (path_relative (projectRoot ctx) item))))) /\
  (forall h spre s raw spost ss' prev,
     js_get ms (ModuleConfig.name cfg) = None ->
     getActionHandler parseModule (Some (ModuleConfig.type cfg)) (countScan ctx)
       = (countScan ctx, Ok (Some (JOwn h))) ->
     serviceEntries cfg = spre ++ (s, raw) :: spost ->
     addServices (h cfg) cfg spre ss (countScan ctx) = (countScan ctx, Ok ss') ->
     js_own ss' s = Some prev ->
     exists msg, getModules names ctx =
       (countScan ctx, Err (ConfigurationError msg
          (DServiceModules s (GardenModule.name (Service.module prev)) (ModuleConfig.name cfg))))).
Proof.
  intros Hm Hscan Hpre Hbase Hload. split.
  - intros m Hown. eexists. apply (getModules_discover_err _ _ (countScan ctx)); [exact Hm|].
    rewrite Hscan, discover_app. unfold bind at 1. rewrite Hpre. simpl.
    unfold bind, discoverItem. rewrite Hbase, String.eqb_refl. unfold liftResult.
    rewrite Hload. unfold js_get. rewrite Hown. reflexivity.
  - intros h spre s raw spost ss' prev Hnone Hh Hes Hspre Hprev.
    eexists. apply (getModules_discover_err _ _ (countScan ctx)); [exact Hm|].
    rewrite Hscan, discover_app. unfold bind at 1. rewrite Hpre. simpl.
    unfold bind at 1. unfold discoverItem. rewrite Hbase, String.eqb_refl.
    unfold bind at 1. unfold liftResult. rewrite Hload, Hnone.
    unfold bind at 1. rewrite Hh. unfold bind at 1. unfold callParse, ret at 1.
    unfold bind at 1. rewrite Hes, addServices_app. unfold bind at 1. rewrite Hspre.
    simpl. unfold js_get at 1. rewrite Hprev. reflexivity.
Qed.

(** C4 (amended).  [setEnvironment(selector)] splits the selector on ['.'],
    takes the first segment as the name and the other segments joined by
    ['.'] as the namespace, or [DEFAULT_NAMESPACE] when that join is empty.
    If the name is a key of the project's environments it stores the pair as
    the active environment (replacing any previous one) and returns it; if the
    name is neither a key nor a member inherited from [Object.prototype] it
    fails with a [ParameterError] and changes nothing. *)
Theorem setEnvironment_selector ctx selector :
  let parts := split_on "." selector in
  let name := hd "" parts in
  let rest := join "." (tl parts) in
  let ns := if String.eqb rest "" then DEFAULT_NAMESPACE else rest in
  (forall envcfg,
     js_own (ProjectConfig.environments (config ctx)) name = Some envcfg ->
     setEnvironment selector ctx = (setEnvironmentFields ctx name ns, Ok (name, ns)) /\
     environment (setEnvironmentFields ctx name ns) = Some name /\
     namespace (setEnvironmentFields ctx name ns) = Some ns) /\
  (js_own (ProjectConfig.environments (config ctx)) name = None ->
   is_proto_key name = false ->
   exists msg, setEnvironment selector ctx =
     (ctx, Err (ParameterError msg (DEnvironment name ns)))).
Proof.
  simpl. split.
  - intros envcfg Hown. rewrite setEnvironment_unfold. simpl. unfold js_get.
    rewrite Hown. repeat split.
  - intros Hown Hproto. rewrite setEnvironment_unfold. simpl. unfold js_get.
    rewrite Hown, Hproto. eexists. reflexivity.
Qed.

(** C5.  In every context a caller can hold (with a project configuration
    declaring no environment under the empty name, which the identifier
    grammar of environment names excludes), [getEnvironment] fails with a
    [PluginError] when no [setEnvironment] call has succeeded, and otherwise
    returns the name and namespace of the last successful call together with
    the environment block looked up by that name. *)
Theorem getEnvironment_after_set ctx tr :
  reach ctx tr ->
  js_own (ProjectConfig.environments (config ctx)) "" = None ->
  (lastEnvironment tr = None ->
   getEnvironment ctx = (ctx, Err (PluginError "Environment has not been set" DEmpty))) /\
  (forall n ns, lastEnvironment tr = Some (n, ns) ->
   getEnvironment ctx =
     (ctx, Ok (Environment.mk n (Some ns) (js_get (ProjectConfig.environments (config ctx)) n)))).
Proof.
  intros Hr Hempty. pose proof (reach_Inv _ _ Hr) as HI.
  pose proof (inv_env _ _ HI) as He. pose proof (inv_ns _ _ HI) as Hns.
  unfold getEnvironment, bind, get, ret, throw. split.
  - intros Hl. rewrite He, Hl. reflexivity.
  - intros n ns Hl. rewrite He, Hns, Hl. simpl.
    pose proof (inv_env_known _ _ HI _ _ Hl) as Hk.
    destruct n as [|c n]; [|reflexivity].
    exfalso. apply Hk. unfold js_get. rewrite Hempty. reflexivity.
Qed.

(** C6 (amended).  In every context a caller can hold, [registerPlugin]
    fails with Joi's validation error when the new plugin's identifier does
    not satisfy the identifier grammar, and with a [PluginError] when a plugin
    with that identifier is already registered.  A valid identifier that is
    new (and is not a member inherited from [Object.prototype]) is registered:
    the plugin joins the registration order, and every registered plugin,
    old and new, keeps its own handler for each capability it implements. *)
Theorem registerPlugin_outcomes ctx tr f :
  reach ctx tr ->
  let p := f ctx in
  let n := Plugin.name p in
  (JoiIdentifier n = false -> registerPlugin f ctx = (ctx, Err (ValidationError n))) /\
  (JoiIdentifier n = true -> In n (map Plugin.name (registeredPlugins tr)) ->
   exists msg d, registerPlugin f ctx = (ctx, Err (PluginError msg d))) /\
  (JoiIdentifier n = true -> ~ In n (map Plugin.name (registeredPlugins tr)) ->
   is_proto_key n = false ->
   snd (registerPlugin f ctx) = Ok tt /\
   reach (fst (registerPlugin f ctx)) (tr ++ [Registered p]) /\
   registeredPlugins (tr ++ [Registered p]) = registeredPlugins tr ++ [p] /\
   (forall q a, In q (registeredPlugins tr ++ [p]) ->
      js_get (actionMapGet (actionHandlers (fst (registerPlugin f ctx))) a) (Plugin.name q)
      = option_map JOwn (pluginAction q a))).
Proof.
  intros Hr. pose proof (reach_Inv _ _ Hr) as HI. simpl.
  pose proof (inv_plugins _ _ HI) as Hp.
  split; [|split].
  - intros Hj. rewrite registerPlugin_unfold, Hj. reflexivity.
  - intros Hj Hin. rewrite registerPlugin_unfold, Hj, Hp.
    destruct (js_own_pluginEntries_name _ _ Hin) as [q Hq].
    unfold js_get. rewrite Hq. eauto.
  - intros Hj Hnin Hproto.
    assert (Hg : js_get (plugins ctx) (Plugin.name (f ctx)) = None).
    { unfold js_get. rewrite Hp, (js_own_pluginEntries_notin _ _ Hnin), Hproto. reflexivity. }
    assert (Hok : snd (registerPlugin f ctx) = Ok tt).
    { rewrite registerPlugin_unfold, Hj, Hg. reflexivity. }
    assert (Hr' : reach (fst (registerPlugin f ctx)) (tr ++ [Registered (f ctx)])).
    { pose proof (reach_step _ _ (OpRegisterPlugin f) Hr) as Hs. simpl in Hs.
      rewrite Hok in Hs. exact Hs. }
    assert (Hregs : registeredPlugins (tr ++ [Registered (f ctx)])
                    = registeredPlugins tr ++ [f ctx]).
    { now rewrite registeredPlugins_app. }
    split; [exact Hok|]. split; [exact Hr'|]. split; [exact Hregs|].
    intros q a Hq. rewrite <- Hregs in Hq.
    exact (Inv_handler _ _ _ _ (reach_Inv _ _ Hr') Hq).
Qed.

(** C7.  When no plugin left by the module-type restriction implements the
    capability, global resolution fails with a [ParameterError] whose payload
    carries the requested capability and module type. *)
Theorem getActionHandler_no_handler ctx a mt :
  Forall (fun p => implementsAction a p = false)
    (filterModuleType mt (js_values (plugins ctx))) ->
  getActionHandler a mt ctx =
    (ctx, Err (ParameterError (noHandlerMessage a mt) (DNoHandler a mt))).
Proof.
  intros Hnone. rewrite getActionHandler_unfold, (find_none_Forall _ _ Hnone). reflexivity.
Qed.

(** C8 (amended).  For calls that do not overlap:
    - once a call to [getModules] succeeds, the module index is cached: that
      call started at most one scan, and whatever is called afterwards, no
      further scan starts, the cached index stays the same, and
      [getModules()] returns that very index ([getModules(names)] its
      [pick]);
    - a call that fails leaves the context as it found it apart from the scan
      it started: nothing is cached, and the next call scans again;
    - [getModules] is exactly a call issued while no other call is in flight
      and resumed until it settles (the calls of the interleaved model). *)
Theorem getModules_memoized names ctx :
  (forall ctx1 r, getModules names ctx = (ctx1, Ok r) ->
   exists idx,
     modules ctx1 = Some idx /\ scanCount ctx1 <= S (scanCount ctx) /\
     r = pickView names (Some idx) /\
     forall ops names',
       modules (runOps ops ctx1) = Some idx /\
       scanCount (runOps ops ctx1) = scanCount ctx1 /\
       getModules names' (runOps ops ctx1) = (runOps ops ctx1, Ok (pickView names' (Some idx)))) /\
  (forall ctx1 e, getModules names ctx = (ctx1, Err e) ->
   ctx1 = countScan ctx /\ modules ctx1 = None /\
   forall names', scanCount (fst (getModules names' ctx1)) = S (scanCount ctx1)) /\
  (forall cb,
   let w := runSched (Start names :: repeat (Resume 0) (S (length (scanDirectory (projectRoot ctx)))))
              (mkWorld ctx cb []) in
   wctx w = fst (getModules names ctx) /\ map callResult (calls w) = [Some (snd (getModules names ctx))]).
Proof.
  split; [|split].
  - intros ctx1 r Hg.
    assert (Hc : exists idx, modules ctx1 = Some idx /\ scanCount ctx1 <= S (scanCount ctx) /\
                             r = pickView names (Some idx)).
    { destruct (getModules_cases names ctx)
        as [(idx & Hm & Hg')|(Hm & [(e & _ & Hg')|(ms & ss & _ & Hg')])];
        rewrite Hg' in Hg; inversion Hg; subst; simpl; eauto. }
    destruct Hc as (idx & Hm & Hs & Hrv). exists idx. repeat split; auto.
    + apply (runOps_modules ops ctx1 idx Hm).
    + apply (runOps_modules ops ctx1 idx Hm).
    + destruct (runOps_modules ops ctx1 idx Hm) as [Hm2 _].
      destruct (getModules_cases names' (runOps ops ctx1))
        as [(idx' & Hm' & ->)|(Hn & _)]; [|congruence].
      rewrite Hm2 in Hm'. now inversion Hm'.
  - intros ctx1 e Hg.
    destruct (getModules_cases names ctx)
      as [(idx & Hm & Hg')|(Hm & [(e' & _ & Hg')|(ms & ss & _ & Hg')])];
      rewrite Hg' in Hg; inversion Hg; subst.
    split; [reflexivity|]. split; [exact Hm|]. intros names'.
    destruct (getModules_cases names' (countScan ctx))
      as [(idx & Hm' & _)|(_ & [(e2 & _ & ->)|(ms & ss & _ & ->)])];
      [simpl in Hm'; congruence|reflexivity|reflexivity].
  - intros cb. apply getModules_alone.
Qed.

(** C9.  In every context a caller can hold, for each capability [a], the
    handler table of [a] has an entry under an identifier exactly when a
    registered plugin with that identifier implements [a], and the entry is
    that plugin's handler. *)
Theorem actionHandlers_iff_implements ctx tr :
  reach ctx tr ->
  forall a k,
    ((exists h, js_own (actionMapGet (actionHandlers ctx) a) k = Some h) <->
     (exists p, In p (registeredPlugins tr) /\ Plugin.name p = k /\ implementsAction a p = true)) /\
    (forall p, In p (registeredPlugins tr) -> Plugin.name p = k ->
       js_own (actionMapGet (actionHandlers ctx) a) k = pluginAction p a).
Proof.
  intros Hr a k. pose proof (reach_Inv _ _ Hr) as HI.
  pose proof (inv_nodup _ _ HI) as Hnd.
  rewrite (inv_handlers _ _ HI), (inv_plugins _ _ HI). split.
  - rewrite (js_own_pluginEntries _ _ Hnd). split.
    + intros [h Hh]. destruct (find _ _) as [p|] eqn:Hf; [|discriminate].
      apply find_some in Hf as [Hin Heq]. apply String.eqb_eq in Heq.
      exists p. repeat split; auto. unfold implementsAction. now rewrite Hh.
    + intros (p & Hin & <- & Himpl). rewrite <- (js_own_pluginEntries _ _ Hnd).
      rewrite (js_own_pluginEntries_in _ _ Hnd Hin). unfold implementsAction in Himpl.
      destruct (pluginAction p a) as [h|]; [eauto|discriminate].
  - intros p Hin <-. now rewrite (js_own_pluginEntries_in _ _ Hnd Hin).
Qed.

(** C10.  In every context a caller can hold, the module and service indexes
    are either both absent or both present; every service in the service index
    has as owning module a module present in the module index; and a call to
    [getModules] either leaves both absent or sets both from the result of one
    and the same discovery pass. *)
Theorem services_owned_by_indexed_modules ctx tr :
  reach ctx tr ->
  (modules ctx = None <-> services ctx = None) /\
  (forall ss, services ctx = Some ss ->
     exists ms, modules ctx = Some ms /\
       forall s svc, js_own ss s = Some svc ->
         exists n, js_own ms n = Some (Service.module svc)) /\
  (forall names, modules ctx = None ->
     modules (fst (getModules names ctx)) = None \/
     exists ms ss,
       discover (scanDirectory (projectRoot ctx)) ([], []) (countScan ctx)
         = (countScan ctx, Ok (ms, ss)) /\
       modules (fst (getModules names ctx)) = Some ms /\
       services (fst (getModules names ctx)) = Some ss).
Proof.
  intros Hr. pose proof (reach_Inv _ _ Hr) as HI. split; [|split].
  - exact (inv_committed _ _ HI).
  - intros ss Hs. destruct (modules ctx) as [ms|] eqn:Hm.
    + exists ms. split; [reflexivity|]. exact (inv_owners _ _ HI ms ss Hm Hs).
    + apply (inv_committed _ _ HI) in Hm. congruence.
  - intros names Hm.
    destruct (getModules_cases names ctx)
      as [(idx & Hm' & _)|(_ & [(e & _ & ->)|(ms & ss & Hd & ->)])].
    + congruence.
    + left. exact Hm.
    + right. exists ms, ss. auto.
Qed.

End Claims.

(** * Witnesses and counterexamples on the concrete runtime *)

Section EmptyScan.
#[local] Existing Instance rt0.

Lemma getActionHandler_first_registered_witness :
  reach (demoContext []) (demoTrace []) /\
  getActionHandler parseModule (Some "container") (demoContext [])
    = (demoContext [], Ok (Some (JOwn genericModule))).
Proof.
  assert (Hr : reach (demoContext []) (demoTrace []))
    by (apply (reach_new "/p"); vm_compute; reflexivity).
  split; [exact Hr|].
  destruct (@getActionHandler_first_registered rt0 demoIdentifier_not_index _ _
              parseModule (Some "container") Hr) as [_ ->].
  vm_compute. reflexivity.
Defined.

(** C1: an empty module type restricts nothing; the spec's filter would keep
    no plugin. *)
Lemma getActionHandler_empty_module_type_cex :
  snd (getActionHandler parseModule (Some "") (demoContext [])) = Ok (Some (JOwn genericModule)) /\
  filter (fun p => existsb (String.eqb "") (Plugin.supportedModuleTypes p))
    (js_values (plugins (demoContext []))) = [].
Proof. split; vm_compute; reflexivity. Qed.

Lemma getEnvActionHandler_env_scoped_witness :
  reach (runOp (OpSetEnvironment "local") (demoContext []))
    (demoTrace [] ++ opEvents (OpSetEnvironment "local") (demoContext [])) /\
  snd (getEnvironment (runOp (OpSetEnvironment "local") (demoContext [])))
    = Ok (Environment.mk "local" (Some "default")
            (Some (JOwn (EnvironmentConfig.mk [("container", ProviderConfig.mk "container")])))) /\
  snd (getEnvActionHandler buildModule None (runOp (OpSetEnvironment "local") (demoContext [])))
    = Ok (Some (JOwn (fun m => ("container built " ++ GardenModule.name m)%string))).
Proof.
  assert (Hr : reach (runOp (OpSetEnvironment "local") (demoContext []))
                 (demoTrace [] ++ opEvents (OpSetEnvironment "local") (demoContext [])))
    by (apply reach_step; apply (reach_new "/p"); vm_compute; reflexivity).
  assert (He : snd (getEnvironment (runOp (OpSetEnvironment "local") (demoContext [])))
    = Ok (Environment.mk "local" (Some "default")
            (Some (JOwn (EnvironmentConfig.mk [("container", ProviderConfig.mk "container")])))))
    by (vm_compute; reflexivity).
  split; [exact Hr|]. split; [exact He|].
  destruct (@getEnvActionHandler_env_scoped rt0 demoIdentifier_not_index _ _ buildModule None _ Hr He)
    as (cfg & Hcfg & -> & _).
  simpl in Hcfg. injection Hcfg as <-. vm_compute. reflexivity.
Defined.

Lemma setEnvironment_selector_witness :
  js_own (ProjectConfig.environments (config (demoContext []))) "prod" <> None /\
  setEnvironment "prod.teamA" (demoContext [])
    = (setEnvironmentFields (demoContext []) "prod" "teamA", Ok ("prod", "teamA")).
Proof.
  split; [vm_compute; discriminate|].
  destruct (setEnvironment_selector (demoContext []) "prod.teamA") as [H1 _].
  exact (proj1 (H1 _ eq_refl)).
Defined.

(** C4: a trailing dot leaves an empty remainder, which the code replaces by
    the default namespace. *)
Lemma setEnvironment_trailing_dot_cex :
  snd (setEnvironment "prod." (demoContext [])) = Ok ("prod", "default") /\
  tl (split_on "." "prod.") = [EmptyString] /\ join "." [EmptyString] = EmptyString.
Proof. split; [|split]; vm_compute; reflexivity. Qed.

Lemma getEnvironment_after_set_witness :
  reach (runOp (OpSetEnvironment "local") (demoContext []))
    (demoTrace [] ++ opEvents (OpSetEnvironment "local") (demoContext [])) /\
  js_own (ProjectConfig.environments (config (runOp (OpSetEnvironment "local") (demoContext []))))
    EmptyString = None /\
  getEnvironment (runOp (OpSetEnvironment "local") (demoContext []))
    = (runOp (OpSetEnvironment "local") (demoContext []),
       Ok (Environment.mk "local" (Some "default")
             (js_get (ProjectConfig.environments (config (demoContext []))) "local"))).
Proof.
  assert (Hr : reach (runOp (OpSetEnvironment "local") (demoContext []))
                 (demoTrace [] ++ opEvents (OpSetEnvironment "local") (demoContext [])))
    by (apply reach_step; apply (reach_new "/p"); vm_compute; reflexivity).
  assert (He : js_own (ProjectConfig.environments
                         (config (runOp (OpSetEnvironment "local") (demoContext [])))) EmptyString
               = None) by (vm_compute; reflexivity).
  split; [exact Hr|]. split; [exact He|].
  destruct (getEnvironment_after_set _ _ Hr He) as [_ H2].
  apply H2. vm_compute. reflexivity.
Defined.

Lemma registerPlugin_outcomes_witness :
  reach (demoContext []) (demoTrace []) /\
  snd (registerPlugin (demoPlugin "docker" ["container"] true true) (demoContext [])) = Ok tt.
Proof.
  assert (Hr : reach (demoContext []) (demoTrace []))
    by (apply (reach_new "/p"); vm_compute; reflexivity).
  split; [exact Hr|].
  destruct (registerPlugin_outcomes _ _ (demoPlugin "docker" ["container"] true true) Hr)
    as (_ & _ & H3).
  refine (proj1 (H3 _ _ _)).
  - vm_compute. reflexivity.
  - vm_compute. intuition discriminate.
  - vm_compute. reflexivity.
Defined.

(** C6: an identifier outside the grammar is refused by the validator, with
    its own error rather than a [PluginError]. *)
Lemma registerPlugin_invalid_name_cex :
  snd (registerPlugin (barePlugin EmptyString) (demoContext [])) = Err (ValidationError EmptyString).
Proof. vm_compute. reflexivity. Qed.

Lemma getActionHandler_no_handler_witness :
  Forall (fun p => implementsAction buildModule p = false)
    (filterModuleType (Some "generic-function") (js_values (plugins (demoContext [])))) /\
  getActionHandler buildModule (Some "generic-function") (demoContext [])
    = (demoContext [], Err (ParameterError (noHandlerMessage buildModule (Some "generic-function"))
                              (DNoHandler buildModule (Some "generic-function")))).
Proof.
  assert (H : Forall (fun p => implementsAction buildModule p = false)
                (filterModuleType (Some "generic-function") (js_values (plugins (demoContext [])))))
    by (vm_compute; repeat constructor).
  split; [exact H|]. exact (getActionHandler_no_handler _ _ _ H).
Defined.

Lemma actionHandlers_iff_implements_witness :
  reach (demoContext []) (demoTrace []) /\
  exists h, js_own (actionMapGet (actionHandlers (demoContext [])) buildModule) "container" = Some h.
Proof.
  assert (Hr : reach (demoContext []) (demoTrace []))
    by (apply (reach_new "/p"); vm_compute; reflexivity).
  split; [exact Hr|].
  destruct (actionHandlers_iff_implements _ _ Hr buildModule "container") as [[_ Hiff] _].
  apply Hiff. exists (demoPlugin "container" ["container"] true true (initialContext "/p")).
  split; [|split; reflexivity].
  vm_compute. right. left. reflexivity.
Defined.

End EmptyScan.

Section DuplicateScan.
#[local] Existing Instance rtDup.

Lemma getModules_duplicate_names_witness :
  modules (demoContext scanDup) = None /\
  exists msg, getModules None (demoContext scanDup)
    = (countScan (demoContext scanDup),
       Err (ConfigurationError msg (DModulePaths (Some "/p/a") "dup/garden.yml"))).
Proof.
  assert (Hm : modules (demoContext scanDup) = None) by (vm_compute; reflexivity).
  split; [exact Hm|].
  refine (proj1 (getModules_duplicate_names None (demoContext scanDup)
                   ["/p/a/garden.yml"] "/p/dup/garden.yml" []
                   [("a", genericModule (ModuleConfig.mk "a" "container" "/p/a" (Some [("api", "a-api")])))]
                   [("api", Service.mk (genericModule (ModuleConfig.mk "a" "container" "/p/a"
                                                          (Some [("api", "a-api")]))) "a-api")]
                   (ModuleConfig.mk "a" "container" "/p/dup" (Some [("api", "a-api")]))
                   Hm _ _ _ _)
            (genericModule (ModuleConfig.mk "a" "container" "/p/a" (Some [("api", "a-api")]))) _);
    vm_compute; reflexivity.
Defined.

(** C3: the first path of the payload is the earlier module's recorded
    directory, an absolute path, not a path relative to the project root. *)
Lemma getModules_duplicate_path_cex :
  match snd (getModules None (demoContext scanDup)) with
  | Err (ConfigurationError _ d) => d = DModulePaths (Some "/p/a") "dup/garden.yml"
  | _ => False
  end /\
  "/p/a" <> path_relative "/p" "/p/a/garden.yml" /\ "/p/a" <> path_relative "/p" "/p/a".
Proof. split; [vm_compute; reflexivity|]. split; vm_compute; discriminate. Qed.

End DuplicateScan.

Section TwoModules.
#[local] Existing Instance rtAB.

Lemma getModules_memoized_witness :
  (getModules None (demoContext scanAB)
     = (fst (getModules None (demoContext scanAB)),
        Ok (Same [("a", genericModule (ModuleConfig.mk "a" "container" "/p/a" (Some [("api", "a-api")])));
                  ("b", genericModule (ModuleConfig.mk "b" "container" "/p/b" None))])) /\
   scanCount (runOps [OpGetModules None; OpGetServices None; OpRegisterPlugin (barePlugin "x")]
                (fst (getModules None (demoContext scanAB)))) = 1) /\
  (modules (fst (@getModules rtDup None (demoContext scanDup))) = None /\
   scanCount (fst (@getModules rtDup None (fst (@getModules rtDup None (demoContext scanDup))))) = 2) /\
  map callResult (calls (runSched (Start None :: repeat (Resume 0) 4) (mkWorld (demoContext scanAB) None [])))
    = [Some (snd (getModules None (demoContext scanAB)))].
Proof.
  assert (Hg : getModules None (demoContext scanAB)
    = (fst (getModules None (demoContext scanAB)),
       Ok (Same [("a", genericModule (ModuleConfig.mk "a" "container" "/p/a" (Some [("api", "a-api")])));
                 ("b", genericModule (ModuleConfig.mk "b" "container" "/p/b" None))])))
    by (vm_compute; reflexivity).
  split; [|split].
  - split; [exact Hg|].
    destruct (proj1 (getModules_memoized _ _) _ _ Hg) as (idx & _ & _ & _ & Hops).
    destruct (Hops [OpGetModules None; OpGetServices None; OpRegisterPlugin (barePlugin "x")] None)
      as (_ & -> & _).
    vm_compute. reflexivity.
  - assert (Hx : match snd (@getModules rtDup None (demoContext scanDup)) with
                 | Err _ => True | Ok _ => False end) by (vm_compute; exact I).
    destruct (@getModules rtDup None (demoContext scanDup)) as [c1 [r|e]] eqn:Hd;
      [contradiction|].
    destruct (proj1 (proj2 (@getModules_memoized rtDup None (demoContext scanDup))) _ _ Hd)
      as (Hc & Hm & Hn).
    simpl fst. split; [exact Hm|]. rewrite (Hn None), Hc. vm_compute. reflexivity.
  - exact (proj2 (proj2 (proj2 (getModules_memoized None (demoContext scanAB))) None)).
Defined.

(** C8: two overlapping [getModules()] calls on one context each run a scan,
    and the one that settles second replaces the cached indexes: of the two
    calls issued after the first one settled, the first gets the first pass's
    module index, the second the second pass's one. *)
Lemma getModules_overlapping_calls_cex :
  let w := runSched overlapSched (mkWorld (demoContext scanAB) None []) in
  scanCount (demoContext scanAB) = 0 /\ scanCount (wctx w) = 2 /\
  map callFrom (calls w) = [Some 1; Some 2; Some 1; Some 2] /\ committedBy w = Some 2.
Proof. vm_compute. repeat split. Qed.

Lemma services_owned_by_indexed_modules_witness :
  reach (runOp (OpGetModules None) (demoContext scanAB))
    (demoTrace scanAB ++ opEvents (OpGetModules None) (demoContext scanAB)) /\
  services (runOp (OpGetModules None) (demoContext scanAB)) <> None /\
  modules (runOp (OpGetModules None) (demoContext scanAB)) <> None.
Proof.
  assert (Hr : reach (runOp (OpGetModules None) (demoContext scanAB))
                 (demoTrace scanAB ++ opEvents (OpGetModules None) (demoContext scanAB)))
    by (apply reach_step; apply (reach_new "/p"); vm_compute; reflexivity).
  assert (Hs : services (runOp (OpGetModules None) (demoContext scanAB)) <> None)
    by (vm_compute; discriminate).
  split; [exact Hr|]. split; [exact Hs|].
  destruct (services_owned_by_indexed_modules _ _ Hr) as [Hiff _].
  rewrite Hiff. exact Hs.
Defined.

End TwoModules.

(** * Further properties of the code *)

(** ** Selectors *)

Lemma split_on_nonnil sep s : split_on sep s <> [].
Proof.
  destruct s as [|c s]; simpl; [discriminate|].
  destruct (split_on sep s) as [|seg segs]; [discriminate|].
  destruct (Ascii.eqb c sep); discriminate.
Qed.

Lemma concat_cons_nonnil sep x l :
  l <> [] -> String.concat sep (x :: l) = (x ++ sep ++ String.concat sep l)%string.
Proof. destruct l; [congruence|reflexivity]. Qed.

Lemma join_split_on sep s : join (String sep EmptyString) (split_on sep s) = s.
Proof.
  unfold join. induction s as [|c s IH]; [reflexivity|]. simpl split_on.
  destruct (split_on sep s) as [|seg segs] eqn:Hs; [now destruct (split_on_nonnil sep s)|].
  destruct (Ascii.eqb_spec c sep) as [->|Hne].
  - rewrite concat_cons_nonnil by discriminate. rewrite IH. reflexivity.
  - destruct segs as [|seg' segs].
    + simpl in *. now rewrite IH.
    + rewrite concat_cons_nonnil in * by discriminate. rewrite <- IH. reflexivity.
Qed.

Lemma split_on_no_sep sep s seg :
  In seg (split_on sep s) -> ~ In sep (list_ascii_of_string seg).
Proof.
  revert seg. induction s as [|c s IH]; simpl; intros seg.
  - intros [<-|[]]. simpl. tauto.
  - destruct (split_on sep s) as [|seg' segs] eqn:Hs; [now destruct (split_on_nonnil sep s)|].
    destruct (Ascii.eqb_spec c sep) as [->|Hne].
    + intros [<-|Hin]; [simpl; tauto|]. now apply IH.
    + intros [<-|Hin]; [|apply IH; now right].
      simpl. intros [Hc|Hin]; [congruence|]. revert Hin. apply IH. now left.
Qed.

(** ** Picks *)

Lemma js_own_pick {V} (o : jsobj V) ns acc k :
  js_own (js_pick o ns acc) k =
  if existsb (String.eqb k) ns
  then match js_get o k with Some v => Some v | None => js_own acc k end
  else js_own acc k.
Proof.
  revert acc. induction ns as [|n ns IH]; intros acc; simpl; [reflexivity|].
  destruct (js_get o n) as [v|] eqn:Hg; rewrite IH; [rewrite js_own_set|];
    destruct (String.eqb_spec k n) as [->|]; simpl; rewrite ?Hg;
    destruct (existsb _ ns); reflexivity.
Qed.

(** ** Key lists of the indexes *)

Lemma js_own_none_notin {V} (o : jsobj V) k : js_own o k = None -> ~ In k (map fst o).
Proof.
  induction o as [|[k' v] o IH]; simpl; [tauto|].
  destruct (String.eqb_spec k k') as [->|Hne]; [discriminate|].
  intros Hn [Heq|Hin]; [congruence|exact (IH Hn Hin)].
Qed.

Lemma filterModuleType_app mt l1 l2 :
  filterModuleType mt (l1 ++ l2) = filterModuleType mt l1 ++ filterModuleType mt l2.
Proof.
  destruct mt as [m|]; simpl; [|reflexivity].
  destruct (String.eqb m ""); [reflexivity|apply filter_app].
Qed.

Lemma find_app_l {A} (f : A -> bool) l1 l2 x :
  find f l1 = Some x -> find f (l1 ++ l2) = Some x.
Proof.
  induction l1 as [|y l1 IH]; simpl; [discriminate|].
  destruct (f y); auto.
Qed.

Lemma find_app_none {A} (f : A -> bool) l1 l2 :
  find f l1 = None -> find f (l1 ++ l2) = find f l2.
Proof.
  induction l1 as [|y l1 IH]; simpl; [reflexivity|].
  destruct (f y); [discriminate|auto].
Qed.

Section PassKeys.
Context `{Runtime}.

Lemma addServices_keys m cfg es ss c c' ss' :
  addServices m cfg es ss c = (c', Ok ss') ->
  map fst ss' = map fst ss ++ map fst es /\ (NoDup (map fst ss) -> NoDup (map fst ss')).
Proof.
  revert ss c. induction es as [|[s r] es IH]; intros ss c; simpl.
  - intros Heq. inversion Heq; subst. now rewrite app_nil_r.
  - destruct (js_get ss s) as [[prev|k]|] eqn:Hg; [discriminate|discriminate|].
    apply js_get_none in Hg as [Hg _]. rewrite (js_set_fresh _ _ _ Hg).
    intros Ha. destruct (IH _ _ Ha) as [Hk Hnd]. rewrite map_app in Hk. simpl in Hk.
    split; [now rewrite Hk, <- app_assoc|].
    intros Hnd0. apply Hnd. rewrite map_app. simpl.
    apply NoDup_snoc; [exact Hnd0|exact (js_own_none_notin _ _ Hg)].
Qed.

Lemma discoverItem_keys item ms ss c c' ms' ss' :
  discoverItem item (ms, ss) c = (c', Ok (ms', ss')) ->
  (isModuleConfigFile item = false /\ ms' = ms /\ ss' = ss) \/
  (isModuleConfigFile item = true /\ exists cfg,
     loadModuleConfig (path_dir item) = Ok cfg /\
     ~ In (ModuleConfig.name cfg) (map fst ms) /\
     map fst ms' = map fst ms ++ [ModuleConfig.name cfg] /\
     map fst ss' = map fst ss ++ map fst (serviceEntries cfg) /\
     (NoDup (map fst ss) -> NoDup (map fst ss'))).
Proof.
  unfold discoverItem, isModuleConfigFile. intros Hd.
  destruct (String.eqb _ _); [right; split; [reflexivity|]|left; inversion Hd; subst; auto].
  apply bind_ok in Hd as (c1 & cfg & Hl & Hk).
  unfold liftResult in Hl. destruct (loadModuleConfig _) as [cfg'|]; inversion Hl; subst.
  exists cfg. split; [reflexivity|].
  destruct (js_get ms (ModuleConfig.name cfg)) eqn:Hg.
  { apply bind_ok in Hk as (? & ? & _ & Hk). discriminate. }
  apply js_get_none in Hg as [Hg _].
  apply bind_ok in Hk as (c2 & h & _ & Hk).
  apply bind_ok in Hk as (c3 & m & _ & Hk).
  apply bind_ok in Hk as (c4 & ss2 & Ha & Hk).
  unfold ret in Hk. inversion Hk; subst.
  destruct (addServices_keys _ _ _ _ _ _ _ Ha) as [Hk' Hnd].
  rewrite (js_set_fresh _ _ _ Hg), map_app. simpl.
  split; [exact (js_own_none_notin _ _ Hg)|]. auto.
Qed.

Lemma discover_keys items ms ss c c' ms' ss' :
  discover items (ms, ss) c = (c', Ok (ms', ss')) ->
  NoDup (map fst ms) -> NoDup (map fst ss) ->
  exists cfgs,
    Forall2 (fun item cfg => loadModuleConfig (path_dir item) = Ok cfg)
      (filter isModuleConfigFile items) cfgs /\
    map fst ms' = map fst ms ++ map ModuleConfig.name cfgs /\
    map fst ss' = map fst ss ++ concat (map (fun cfg => map fst (serviceEntries cfg)) cfgs) /\
    NoDup (map fst ms') /\ NoDup (map fst ss').
Proof.
  revert ms ss c. induction items as [|item items IH]; intros ms ss c; simpl.
  - intros Heq Hm Hs. inversion Heq; subst. exists []. simpl. rewrite !app_nil_r. auto.
  - intros Hd Hm Hs. apply bind_ok in Hd as (c1 & [ms1 ss1] & Hi & Hd).
    destruct (discoverItem_keys _ _ _ _ _ _ _ Hi)
      as [(Hf & -> & ->)|(Ht & cfg & Hl & Hnin & Hk & Hks & Hnds)].
    + rewrite Hf. exact (IH _ _ _ Hd Hm Hs).
    + rewrite Ht. assert (Hm1 : NoDup (map fst ms1)).
      { rewrite Hk. apply NoDup_snoc; assumption. }
      destruct (IH _ _ _ Hd Hm1 (Hnds Hs)) as (cfgs & Hf2 & Hk2 & Hks2 & Hnd1 & Hnd2).
      exists (cfg :: cfgs). split; [constructor; assumption|].
      split; [|split; [|split; assumption]].
      * rewrite Hk2, Hk, <- app_assoc. reflexivity.
      * rewrite Hks2, Hks, <- app_assoc. reflexivity.
Qed.

Lemma discover_filter items acc c :
  discover items acc c = discover (filter isModuleConfigFile items) acc c.
Proof.
  revert acc c. induction items as [|item items IH]; intros acc c; simpl; [reflexivity|].
  destruct (isModuleConfigFile item) eqn:Hf; simpl.
  - unfold bind. destruct (discoverItem item acc c) as [c1 [a|e]]; [apply IH|reflexivity].
  - unfold bind. destruct acc as [ms ss].
    assert (Hi : discoverItem item (ms, ss) c = (c, Ok (ms, ss))).
    { unfold discoverItem. unfold isModuleConfigFile in Hf. now rewrite Hf. }
    rewrite Hi. apply IH.
Qed.

Lemma registerPlugins_fields fs ctx ctx' :
  registerPlugins fs ctx = (ctx', Ok tt) ->
  projectRoot ctx' = projectRoot ctx /\ environment ctx' = environment ctx /\
  namespace ctx' = namespace ctx /\ modules ctx' = modules ctx /\ services ctx' = services ctx.
Proof.
  revert ctx. induction fs as [|f fs IH]; intros ctx; simpl.
  - intros Heq. inversion Heq; subst. auto 10.
  - intros Hr. apply bind_ok in Hr as (c1 & [] & Hf & Hr).
    rewrite registerPlugin_unfold in Hf.
    destruct (JoiIdentifier _); [|discriminate]. destruct (js_get _ _); [discriminate|].
    inversion Hf; subst. exact (IH _ Hr).
Qed.

End PassKeys.

(** ** The properties *)

Section Extras.
Context `{Runtime}.

(** X1.  A call that throws leaves no trace: a rejected [registerPlugin] or
    [setEnvironment] leaves the context as it was, and a [getModules] call
    that throws ran a discovery pass with nothing cached before and assigns
    neither index (only the scan counter of the model moves). *)
Theorem failed_calls_keep_context f s names ctx :
  (forall e, snd (registerPlugin f ctx) = Err e -> fst (registerPlugin f ctx) = ctx) /\
  (forall e, snd (setEnvironment s ctx) = Err e -> fst (setEnvironment s ctx) = ctx) /\
  (forall e, snd (getModules names ctx) = Err e ->
     modules ctx = None /\ fst (getModules names ctx) = countScan ctx).
Proof.
  split; [|split]; intros e.
  - rewrite registerPlugin_unfold.
    destruct (JoiIdentifier _); [destruct (js_get _ _)|]; simpl; congruence.
  - rewrite setEnvironment_unfold. simpl. destruct (js_get _ _); simpl; congruence.
  - destruct (getModules_cases names ctx)
      as [(idx & _ & ->)|(Hm & [(e' & _ & ->)|(ms & ss & _ & ->)])]; simpl; try discriminate.
    auto.
Qed.

(** X3.  After [setEnvironment] returns [(name, namespace)], [getEnvironment]
    returns that name and namespace with the environment block looked up by
    the name; if the name is empty (a selector starting with a dot, accepted
    when the project declares an environment under the empty name), it
    reports that no environment has been set. *)
Theorem setEnvironment_then_getEnvironment s ctx ctx' n ns :
  setEnvironment s ctx = (ctx', Ok (n, ns)) ->
  (n <> EmptyString ->
   getEnvironment ctx' =
     (ctx', Ok (Environment.mk n (Some ns) (js_get (ProjectConfig.environments (config ctx)) n)))) /\
  (n = EmptyString ->
   getEnvironment ctx' = (ctx', Err (PluginError "Environment has not been set" DEmpty))).
Proof.
  rewrite setEnvironment_unfold. simpl.
  destruct (js_get _ _); [|discriminate]. intros Heq. inversion Heq; subst. clear Heq.
  unfold getEnvironment, bind, get, ret, throw. simpl.
  destruct (hd EmptyString (split_on "." s)) as [|c r]; split; intros Hn;
    [congruence|reflexivity|reflexivity|discriminate].
Qed.

(** X4.  A selector accepted by [setEnvironment] is the returned name, which
    contains no dot, optionally followed by a dot and a remainder; the
    namespace is that remainder, or [DEFAULT_NAMESPACE] when there is no
    remainder or it is empty. *)
Theorem setEnvironment_selector_shape s ctx ctx' n ns :
  setEnvironment s ctx = (ctx', Ok (n, ns)) ->
  ~ In "."%char (list_ascii_of_string n) /\
  ((s = n /\ ns = DEFAULT_NAMESPACE) \/
   exists r, s = (n ++ "." ++ r)%string /\ ns = str_or r DEFAULT_NAMESPACE).
Proof.
  rewrite setEnvironment_unfold. simpl.
  destruct (js_get _ _); [|discriminate]. intros Heq. inversion Heq; subst. clear Heq.
  pose proof (join_split_on "." s) as Hj. pose proof (split_on_no_sep "." s) as Hns.
  pose proof (split_on_nonnil "." s) as Hnn.
  destruct (split_on "." s) as [|seg segs]; [congruence|].
  simpl. split; [apply Hns; now left|].
  unfold join in Hj. destruct segs as [|seg' segs].
  - left. simpl in Hj. split; [congruence|reflexivity].
  - right. exists (join "." (seg' :: segs)). split; [|reflexivity].
    rewrite <- Hj at 1. reflexivity.
Qed.

(** X5.  Environment-scoped resolution needs an active environment: without
    one it fails with the [PluginError] of [getEnvironment], whatever the
    capability and module type. *)
Theorem getEnvActionHandler_requires_environment a mt ctx :
  environment ctx = None \/ environment ctx = Some EmptyString ->
  getEnvActionHandler a mt ctx = (ctx, Err (PluginError "Environment has not been set" DEmpty)).
Proof.
  intros Henv. unfold getEnvActionHandler, getEnvPlugins, getEnvironment, bind, get, throw.
  destruct Henv as [-> | ->]; reflexivity.
Qed.

(** X6.  The discovery pass only looks at the scanned files named
    [MODULE_CONFIG_FILENAME]: dropping every other file from the scan, wherever
    it stands, changes nothing. *)
Theorem discover_declarations_only items acc c :
  discover items acc c = discover (filter isModuleConfigFile items) acc c.
Proof. apply discover_filter. Qed.

(** X7.  When a [getModules] call runs the discovery pass and succeeds, every
    module declaration file in the scan loaded, the module index has one key
    per declaration, the declared names in scan order, with no name twice,
    and the service index has one key per declared service, module by module
    in scan order, with no name twice. *)
Theorem getModules_index_keys names ctx ctx' r :
  modules ctx = None -> getModules names ctx = (ctx', Ok r) ->
  exists ms ss cfgs,
    modules ctx' = Some ms /\ services ctx' = Some ss /\
    Forall2 (fun item cfg => loadModuleConfig (path_dir item) = Ok cfg)
      (filter isModuleConfigFile (scanDirectory (projectRoot ctx))) cfgs /\
    map fst ms = map ModuleConfig.name cfgs /\ NoDup (map fst ms) /\
    map fst ss = concat (map (fun cfg => map fst (serviceEntries cfg)) cfgs) /\
    NoDup (map fst ss).
Proof.
  intros Hm Hg.
  destruct (getModules_cases names ctx)
    as [(idx & Hs & _)|(_ & [(e & _ & Hg')|(ms & ss & Hd & Hg')])];
    [congruence|congruence|].
  rewrite Hg' in Hg. inversion Hg; subst.
  destruct (discover_keys _ _ _ _ _ _ _ Hd (NoDup_nil _) (NoDup_nil _))
    as (cfgs & Hf & Hk & Hks & Hnd1 & Hnd2).
  exists ms, ss, cfgs. simpl in *. auto 10.
Qed.

(** X8.  A module declaration whose type no plugin kept by the module-type
    filter can parse (the registered plugins listing that type, or all of them
    when the type is the empty string) makes [getModules] fail with a
    [ParameterError] naming the [parseModule] capability and that module type,
    once the entries scanned before it were indexed and its name is new. *)
Theorem getModules_missing_parser names ctx pre item post ms ss cfg :
  modules ctx = None ->
  scanDirectory (projectRoot ctx) = pre ++ item :: post ->
  discover pre ([], []) (countScan ctx) = (countScan ctx, Ok (ms, ss)) ->
  isModuleConfigFile item = true ->
  loadModuleConfig (path_dir item) = Ok cfg ->
  js_get ms (ModuleConfig.name cfg) = None ->
  Forall (fun p => implementsAction parseModule p = false)
    (filterModuleType (Some (ModuleConfig.type cfg)) (js_values (plugins ctx))) ->
  getModules names ctx =
    (countScan ctx, Err (ParameterError (noHandlerMessage parseModule (Some (ModuleConfig.type cfg)))
                           (DNoHandler parseModule (Some (ModuleConfig.type cfg))))).
Proof.
  intros Hm Hscan Hpre Hfile Hload Hnew Hnone.
  apply (getModules_discover_err _ _ (countScan ctx)); [exact Hm|].
  rewrite Hscan, discover_app. unfold bind at 1. rewrite Hpre. simpl.
  unfold bind at 1. unfold discoverItem. unfold isModuleConfigFile in Hfile. rewrite Hfile.
  unfold bind at 1. unfold liftResult. rewrite Hload, Hnew.
  unfold bind at 1. rewrite getActionHandler_unfold.
  assert (Hp : plugins (countScan ctx) = plugins ctx) by reflexivity.
  rewrite Hp, (find_none_Forall _ _ Hnone). reflexivity.
Qed.

(** X9.  Once the indexes are cached, [getModules(names)] and
    [getServices(names)] with plain names (no path syntax, not [__proto__],
    [constructor] or [prototype]) return fresh objects holding, for each
    requested name, what the index holds under it (an inherited member of
    [Object.prototype] included, as lodash [pick] keeps it), and nothing for
    any other name; they change nothing. *)
Theorem getModules_getServices_pick names ctx ms ss :
  Forall (fun k => plain_key k = true) names ->
  modules ctx = Some ms -> services ctx = Some ss ->
  (exists o, getModules (Some names) ctx = (ctx, Ok (Picked o)) /\
     forall k, js_own o k = if existsb (String.eqb k) names then js_get ms k else None) /\
  (exists o, getServices (Some names) ctx = (ctx, Ok (Picked o)) /\
     forall k, js_own o k = if existsb (String.eqb k) names then js_get ss k else None).
Proof.
  intros _ Hm Hs.
  destruct (getModules_cases (Some names) ctx) as [(idx & Hm' & Hg)|(Hn & _)]; [|congruence].
  rewrite Hm in Hm'. inversion Hm'; subst idx.
  split.
  - eexists. split; [exact Hg|]. intros k. rewrite js_own_pick.
    destruct (existsb _ _); [|reflexivity]. now destruct (js_get ms k).
  - destruct (getModules_cases None ctx) as [(idx & _ & Hg0)|(Hn & _)]; [|congruence].
    eexists. split.
    + unfold getServices, bind. rewrite Hg0. unfold get, ret. simpl. rewrite Hs. reflexivity.
    + intros k. rewrite js_own_pick.
      destruct (existsb _ _); [|reflexivity]. now destruct (js_get ss k).
Qed.

(** X10.  What each public call may change: only [registerPlugin] changes the
    registry and the handler tables, only [setEnvironment] the active
    environment, only [getModules] and [getServices] the indexes, and no call
    changes the project root or the project configuration. *)
Theorem runOp_frame op ctx :
  config (runOp op ctx) = config ctx /\ projectRoot (runOp op ctx) = projectRoot ctx /\
  match op with
  | OpRegisterPlugin _ => True
  | _ => plugins (runOp op ctx) = plugins ctx /\ actionHandlers (runOp op ctx) = actionHandlers ctx
  end /\
  match op with
  | OpSetEnvironment _ => True
  | _ => environment (runOp op ctx) = environment ctx /\ namespace (runOp op ctx) = namespace ctx
  end /\
  match op with
  | OpGetModules _ | OpGetServices _ => True
  | _ => modules (runOp op ctx) = modules ctx /\ services (runOp op ctx) = services ctx
  end.
Proof.
  destruct (runOp_config op ctx) as [Hc Hr]. split; [exact Hc|]. split; [exact Hr|].
  destruct op; simpl.
  - rewrite registerPlugin_unfold. destruct (JoiIdentifier _); [destruct (js_get _ _)|]; auto.
  - rewrite setEnvironment_unfold. simpl. destruct (js_get _ _); auto.
  - rewrite readonly_getEnvironment; auto.
  - destruct (getModules_cases names ctx)
      as [(? & _ & ->)|(_ & [(? & _ & ->)|(? & ? & _ & ->)])]; auto.
  - rewrite getServices_state.
    destruct (getModules_cases None ctx)
      as [(? & _ & ->)|(_ & [(? & _ & ->)|(? & ? & _ & ->)])]; auto.
  - rewrite readonly_getActionHandler; auto.
  - rewrite readonly_getEnvActionHandler; auto.
Qed.

(** X11.  The constructor fails with the project configuration loader's error
    when that fails; a context it builds has the given project root and the
    loaded configuration, no active environment (so [getEnvironment] fails)
    and neither index. *)
Theorem newGardenContext_fresh root :
  (forall e, loadProjectConfig root = Err e ->
     snd (registerPlugins builtinPlugins (initialContext root)) = Ok tt ->
     newGardenContext root = Err e) /\
  (forall ctx, newGardenContext root = Ok ctx ->
     projectRoot ctx = root /\ loadProjectConfig root = Ok (config ctx) /\
     environment ctx = None /\ namespace ctx = None /\
     modules ctx = None /\ services ctx = None /\
     getEnvironment ctx = (ctx, Err (PluginError "Environment has not been set" DEmpty))).
Proof.
  unfold newGardenContext. split.
  - intros e He Hr. destruct (registerPlugins _ _) as [c [[]|e']]; [|discriminate].
    now rewrite He.
  - intros ctx.
    destruct (registerPlugins builtinPlugins (initialContext root)) as [c [[]|e]] eqn:Hr;
      [|discriminate].
    destruct (loadProjectConfig root) as [cfg|e] eqn:Hl; [|discriminate].
    intros Heq. inversion Heq; subst.
    destruct (registerPlugins_fields _ _ _ Hr) as (Hroot & Henv & Hns & Hm & Hs).
    simpl in *. unfold getEnvironment, bind, get, throw. simpl. rewrite Henv.
    auto 10.
Qed.

(** X12.  When the active environment's name is not a key of the project's
    environments but a member inherited from [Object.prototype] (which
    [setEnvironment] accepts), the environment has no providers and
    environment-scoped resolution always fails with a [ParameterError]. *)
Theorem getEnvActionHandler_inherited_environment a mt ctx n :
  environment ctx = Some n -> n <> EmptyString ->
  js_own (ProjectConfig.environments (config ctx)) n = None -> is_proto_key n = true ->
  getEnvActionHandler a mt ctx =
    (ctx, Err (ParameterError (noEnvHandlerMessage a mt n) (DNoEnvHandler a mt n))).
Proof.
  intros Henv Hn Hown Hproto.
  assert (Hge : getEnvironment ctx =
            (ctx, Ok (Environment.mk n (namespace ctx) (Some (JProto n))))).
  { unfold getEnvironment, bind, get, ret. rewrite Henv.
    destruct n as [|c r]; [congruence|]. unfold js_get. now rewrite Hown, Hproto. }
  rewrite (getEnvActionHandler_unfold _ _ _ _ _ Hge eq_refl). simpl.
  assert (Hf : forall l, filter (fun p : Plugin.t => existsb (String.eqb (Plugin.name p)) []) l = [])
    by (induction l; simpl; auto).
  now rewrite Hf.
Qed.

End Extras.

Section ExtraResolution.
Context `{Runtime}.

Hypothesis identifier_not_index :
  forall s, JoiIdentifier s = true -> is_array_index s = false.

(** X2.  A successful registration never changes what global resolution
    already returns: if [getActionHandler(type, moduleType)] succeeded before,
    it returns the same handler afterwards; if it failed, it now returns the
    new plugin's handler when that plugin implements [type] and passes the
    module-type restriction, and fails as before otherwise. *)
Theorem registerPlugin_resolution ctx tr f a mt :
  reach ctx tr -> snd (registerPlugin f ctx) = Ok tt ->
  getActionHandler a mt (fst (registerPlugin f ctx)) =
    (fst (registerPlugin f ctx),
     match snd (getActionHandler a mt ctx) with
     | Ok h => Ok h
     | Err e =>
         match find (implementsAction a) (filterModuleType mt [f ctx]) with
         | Some p => Ok (option_map JOwn (pluginAction p a))
         | None => Err e
         end
     end).
Proof.
  intros Hr Hok.
  assert (Hr' : reach (fst (registerPlugin f ctx)) (tr ++ [Registered (f ctx)])).
  { pose proof (reach_step _ _ (OpRegisterPlugin f) Hr) as Hs. simpl in Hs.
    rewrite Hok in Hs. exact Hs. }
  pose proof (reach_Inv _ _ Hr) as HI. pose proof (reach_Inv _ _ Hr') as HI'.
  rewrite !getActionHandler_unfold, (Inv_values identifier_not_index _ _ HI),
    (Inv_values identifier_not_index _ _ HI'), registeredPlugins_app, filterModuleType_app.
  simpl.
  destruct (find (implementsAction a) (filterModuleType mt (registeredPlugins tr)))
    as [q|] eqn:Hf.
  - rewrite (find_app_l _ _ _ _ Hf).
    apply find_some in Hf as [Hin _]. apply filterModuleType_incl in Hin.
    rewrite (Inv_handler _ _ _ _ HI Hin).
    rewrite (Inv_handler _ _ q _ HI'); [reflexivity|].
    rewrite registeredPlugins_app. apply in_or_app. now left.
  - rewrite (find_app_none _ _ _ Hf).
    destruct (find (implementsAction a) (filterModuleType mt [f ctx])) as [p|] eqn:Hp;
      [|reflexivity].
    apply find_some in Hp as [Hin _]. apply filterModuleType_incl in Hin.
    rewrite (Inv_handler _ _ p _ HI'); [reflexivity|].
    rewrite registeredPlugins_app. apply in_or_app. right. exact Hin.
Qed.

End ExtraResolution.

(** * Witnesses of the further properties *)

Section ExtraEmptyScan.
#[local] Existing Instance rt0.

Lemma failed_calls_keep_context_witness :
  fst (registerPlugin (barePlugin EmptyString) (demoContext [])) = demoContext [] /\
  fst (setEnvironment "bogus" (demoContext [])) = demoContext [].
Proof.
  destruct (failed_calls_keep_context (barePlugin EmptyString) "bogus" None (demoContext []))
    as (H1 & H2 & _).
  split.
  - apply (H1 (ValidationError EmptyString)). vm_compute. reflexivity.
  - apply (H2 (ParameterError "Could not find environment bogus" (DEnvironment "bogus" "default"))).
    vm_compute. reflexivity.
Defined.

Lemma registerPlugin_resolution_witness :
  reach (demoContext []) (demoTrace []) /\
  snd (registerPlugin (demoPlugin "docker" ["docker"] true true) (demoContext [])) = Ok tt /\
  snd (getActionHandler buildModule (Some "docker")
         (fst (registerPlugin (demoPlugin "docker" ["docker"] true true) (demoContext []))))
    = Ok (option_map JOwn (pluginAction (demoPlugin "docker" ["docker"] true true (demoContext []))
                             buildModule)).
Proof.
  assert (Hr : reach (demoContext []) (demoTrace []))
    by (apply (reach_new "/p"); vm_compute; reflexivity).
  assert (Hok : snd (registerPlugin (demoPlugin "docker" ["docker"] true true) (demoContext []))
                = Ok tt) by (vm_compute; reflexivity).
  split; [exact Hr|]. split; [exact Hok|].
  rewrite (@registerPlugin_resolution rt0 demoIdentifier_not_index _ _ _ buildModule
             (Some "docker") Hr Hok).
  vm_compute. reflexivity.
Defined.

Lemma setEnvironment_then_getEnvironment_witness :
  setEnvironment "local" (demoContext [])
    = (fst (setEnvironment "local" (demoContext [])), Ok ("local", "default")) /\
  getEnvironment (fst (setEnvironment "local" (demoContext [])))
    = (fst (setEnvironment "local" (demoContext [])),
       Ok (Environment.mk "local" (Some "default")
             (js_get (ProjectConfig.environments (config (demoContext []))) "local"))).
Proof.
  assert (Hs : setEnvironment "local" (demoContext [])
    = (fst (setEnvironment "local" (demoContext [])), Ok ("local", "default")))
    by (vm_compute; reflexivity).
  split; [exact Hs|].
  apply (proj1 (setEnvironment_then_getEnvironment _ _ _ _ _ Hs)). discriminate.
Defined.

Lemma setEnvironment_selector_shape_witness :
  setEnvironment "prod.a.b" (demoContext [])
    = (fst (setEnvironment "prod.a.b" (demoContext [])), Ok ("prod", "a.b")) /\
  exists r, "prod.a.b" = ("prod" ++ "." ++ r)%string /\ "a.b" = str_or r DEFAULT_NAMESPACE.
Proof.
  assert (Hs : setEnvironment "prod.a.b" (demoContext [])
    = (fst (setEnvironment "prod.a.b" (demoContext [])), Ok ("prod", "a.b")))
    by (vm_compute; reflexivity).
  split; [exact Hs|].
  destruct (proj2 (setEnvironment_selector_shape _ _ _ _ _ Hs)) as [[Heq _]|Hr];
    [discriminate|exact Hr].
Defined.

Lemma getEnvActionHandler_requires_environment_witness :
  environment (demoContext []) = None /\
  getEnvActionHandler buildModule None (demoContext [])
    = (demoContext [], Err (PluginError "Environment has not been set" DEmpty)).
Proof.
  assert (H : environment (demoContext []) = None) by (vm_compute; reflexivity).
  split; [exact H|]. apply getEnvActionHandler_requires_environment. left. exact H.
Defined.

Lemma newGardenContext_fresh_witness :
  newGardenContext "/p" = Ok (demoContext []) /\
  getEnvironment (demoContext [])
    = (demoContext [], Err (PluginError "Environment has not been set" DEmpty)).
Proof.
  assert (H : newGardenContext "/p" = Ok (demoContext [])) by (vm_compute; reflexivity).
  split; [exact H|].
  destruct (proj2 (newGardenContext_fresh "/p") _ H) as (_ & _ & _ & _ & _ & _ & Hg).
  exact Hg.
Defined.

Lemma getEnvActionHandler_inherited_environment_witness :
  environment (fst (setEnvironment "constructor" (demoContext []))) = Some "constructor" /\
  getEnvActionHandler buildModule None (fst (setEnvironment "constructor" (demoContext [])))
    = (fst (setEnvironment "constructor" (demoContext [])),
       Err (ParameterError (noEnvHandlerMessage buildModule None "constructor")
              (DNoEnvHandler buildModule None "constructor"))).
Proof.
  assert (He : environment (fst (setEnvironment "constructor" (demoContext [])))
               = Some "constructor") by (vm_compute; reflexivity).
  split; [exact He|].
  apply getEnvActionHandler_inherited_environment; [exact He|discriminate| |];
    vm_compute; reflexivity.
Defined.

End ExtraEmptyScan.

Section ExtraTwoModules.
#[local] Existing Instance rtAB.

Lemma getModules_index_keys_witness :
  modules (demoContext scanAB) = None /\
  getModules None (demoContext scanAB)
    = (fst (getModules None (demoContext scanAB)),
       Ok (Same [("a", genericModule (ModuleConfig.mk "a" "container" "/p/a" (Some [("api", "a-api")])));
                 ("b", genericModule (ModuleConfig.mk "b" "container" "/p/b" None))])) /\
  exists ms, modules (fst (getModules None (demoContext scanAB))) = Some ms /\ NoDup (map fst ms).
Proof.
  assert (Hm : modules (demoContext scanAB) = None) by (vm_compute; reflexivity).
  assert (Hg : getModules None (demoContext scanAB)
    = (fst (getModules None (demoContext scanAB)),
       Ok (Same [("a", genericModule (ModuleConfig.mk "a" "container" "/p/a" (Some [("api", "a-api")])));
                 ("b", genericModule (ModuleConfig.mk "b" "container" "/p/b" None))])))
    by (vm_compute; reflexivity).
  split; [exact Hm|]. split; [exact Hg|].
  destruct (getModules_index_keys _ _ _ _ Hm Hg) as (ms & ss & cfgs & Hms & _ & _ & _ & Hnd & _).
  eauto.
Defined.

Lemma getModules_getServices_pick_witness :
  Forall (fun k => plain_key k = true) ["b"; "zzz"] /\
  modules (fst (getModules None (demoContext scanAB)))
    = Some [("a", genericModule (ModuleConfig.mk "a" "container" "/p/a" (Some [("api", "a-api")])));
            ("b", genericModule (ModuleConfig.mk "b" "container" "/p/b" None))] /\
  services (fst (getModules None (demoContext scanAB)))
    = Some [("api", Service.mk (genericModule (ModuleConfig.mk "a" "container" "/p/a"
                                                 (Some [("api", "a-api")]))) "a-api")] /\
  exists o, getModules (Some ["b"; "zzz"]) (fst (getModules None (demoContext scanAB)))
              = (fst (getModules None (demoContext scanAB)), Ok (Picked o)) /\
            js_own o "zzz" = None /\
            js_own o "b" = Some (JOwn (genericModule (ModuleConfig.mk "b" "container" "/p/b" None))).
Proof.
  assert (Hm : modules (fst (getModules None (demoContext scanAB)))
    = Some [("a", genericModule (ModuleConfig.mk "a" "container" "/p/a" (Some [("api", "a-api")])));
            ("b", genericModule (ModuleConfig.mk "b" "container" "/p/b" None))])
    by (vm_compute; reflexivity).
  assert (Hs : services (fst (getModules None (demoContext scanAB)))
    = Some [("api", Service.mk (genericModule (ModuleConfig.mk "a" "container" "/p/a"
                                                 (Some [("api", "a-api")]))) "a-api")])
    by (vm_compute; reflexivity).
  assert (Hp : Forall (fun k => plain_key k = true) ["b"; "zzz"]) by (repeat constructor).
  split; [exact Hp|]. split; [exact Hm|]. split; [exact Hs|].
  destruct (proj1 (getModules_getServices_pick ["b"; "zzz"] _ _ _ Hp Hm Hs)) as (o & Hg & Ho).
  exists o. split; [exact Hg|]. split; rewrite Ho; reflexivity.
Defined.

End ExtraTwoModules.

Section ExtraPython.
#[local] Existing Instance rtPy.

Lemma getModules_missing_parser_witness :
  reach (runOp (OpRegisterPlugin pythonBuildPlugin) (demoContext scanPy))
    (demoTrace scanPy ++ opEvents (OpRegisterPlugin pythonBuildPlugin) (demoContext scanPy)) /\
  map Plugin.name (filterModuleType (Some "python")
    (js_values (plugins (runOp (OpRegisterPlugin pythonBuildPlugin) (demoContext scanPy)))))
    = ["python-build"] /\
  getModules None (runOp (OpRegisterPlugin pythonBuildPlugin) (demoContext scanPy))
    = (countScan (runOp (OpRegisterPlugin pythonBuildPlugin) (demoContext scanPy)),
       Err (ParameterError (noHandlerMessage parseModule (Some "python"))
              (DNoHandler parseModule (Some "python")))).
Proof.
  split; [apply reach_step; apply (reach_new "/p"); vm_compute; reflexivity|].
  split; [vm_compute; reflexivity|].
  apply (getModules_missing_parser None (runOp (OpRegisterPlugin pythonBuildPlugin) (demoContext scanPy))
           ["/p/a/garden.yml"] "/p/py/garden.yml" []
           [("a", genericModule (ModuleConfig.mk "a" "container" "/p/a" (Some [("api", "a-api")])))]
           [("api", Service.mk (genericModule (ModuleConfig.mk "a" "container" "/p/a"
                                                  (Some [("api", "a-api")]))) "a-api")]
           (ModuleConfig.mk "py" "python" "/p/py" None));
    try (vm_compute; reflexivity).
  vm_compute. repeat constructor.
Defined.

End ExtraPython.
